(** * tidb-lightning-ctl: the recovery commands of br/cmd/tidb-lightning-ctl/main.go

    A shallow embedding of the command functions of [main.go].  Every call
    that leaves the file (checkpoint store, TiDB manager, importer, PD/TiKV,
    the operating system, stderr) is an event: the run of a command is the
    list of events it performs, each with the answer the outside world gave.
    The world is an arbitrary function from the history so far and the call
    to an answer, so a theorem proved for every world holds for every
    behaviour of the collaborators.

    [main] and [run] (flag parsing and the choice of the command) are not
    embedded: every command function below is what [run] calls with the
    value of its flag. *)

From Stdlib Require Import ZArith List String Ascii Bool Lia.
Import ListNotations.
Local Open Scope string_scope.
Local Open Scope Z_scope.
Local Open Scope list_scope.

(** ** Go values *)

(** Errors as [github.com/pingcap/errors] builds them: a root error, the
    wrapper that carries a stack trace ([ErrTrace], what [errors.Trace]
    adds) and the wrapper that carries a message ([ErrAnnotatef]).
    [errors.Errorf] makes a root error from a format and its arguments and
    records the stack with it; [ErrNew] is a root without a stack trace,
    as the standard library and other packages make them.  An error that a
    collaborator has traced already is an [ErrTrace]. *)
Inductive error : Type :=
| ErrNew (msg : string)
| ErrErrorf (format : string) (args : list string)
| ErrTrace (cause : error)
| ErrAnnotatef (cause : error) (format : string) (args : list string).

(** [errors.Cause]: the root below the wrappers. *)
Fixpoint Cause (e : error) : error :=
  match e with
  | ErrNew _ | ErrErrorf _ _ => e
  | ErrTrace c => Cause c
  | ErrAnnotatef c _ _ => Cause c
  end.

(** A Go [error] value is [nil] or an error. *)
Definition goerror : Type := option error.

(** [errors.HasStack(err)]: the error carries a stack trace.  Every error
    that [errors.Errorf], [errors.Trace] or [errors.Annotatef] has made
    does. *)
Definition errors_HasStack (e : error) : bool :=
  match e with
  | ErrNew _ => false
  | ErrErrorf _ _ | ErrTrace _ | ErrAnnotatef _ _ _ => true
  end.

(** [errors.AddStack(err)]: an error that carries a stack trace is returned
    as it is, any other gets one. *)
Definition errors_AddStack (e : error) : error :=
  if errors_HasStack e then e else ErrTrace e.
Arguments errors_AddStack : simpl never.

(** [errors.Trace(err)]: nil stays nil, any other error goes through
    [errors.AddStack]. *)
Definition errors_Trace (err : goerror) : goerror := option_map errors_AddStack err.

(** [errors.Annotatef(err, format, args...)]: nil stays nil. *)
Definition errors_Annotatef (err : goerror) (format : string) (args : list string) : goerror :=
  option_map (fun e => ErrAnnotatef e format args) err.

Definition errors_Errorf (format : string) (args : list string) : goerror :=
  Some (ErrErrorf format args).

(** Fixed-width integers: a value of Go's [int32] / [int64] is a [Z] in
    range, and arithmetic wraps around. *)
Definition MaxInt32 : Z := 2147483647.
Definition MinInt32 : Z := -2147483648.

Definition to_int32 (z : Z) : Z := (z + 2 ^ 31) mod 2 ^ 32 - 2 ^ 31.
Definition to_int64 (z : Z) : Z := (z + 2 ^ 63) mod 2 ^ 64 - 2 ^ 63.

Definition is_int32 (z : Z) : Prop := MinInt32 <= z <= MaxInt32.
Definition is_int64 (z : Z) : Prop := - 2 ^ 63 <= z < 2 ^ 63.

(** [engineID++] on an [int32]. *)
Definition int32_incr (z : Z) : Z := to_int32 (z + 1).

(** ** Data of the collaborating packages, as [main.go] uses it *)

(** The fields of [config.Config] that [main.go] reads. *)
Record Config : Type := {
  TiDB_PdAddr : string;
  TikvImporter_Backend : string;
  TikvImporter_Addr : string;
  TikvImporter_SortedKVDir : string;
  TikvImporter_RegionSplitSize : Z;
  App_MetaSchemaName : string
}.

(** [config.ImportMode], [config.NormalMode] and [config.BackendLocal] are
    the flag values the usage text of [run] lists and [checkpointErrorDestroy]
    compares with. *)
Definition config_ImportMode : string := "import".
Definition config_NormalMode : string := "normal".
Definition config_BackendLocal : string := "local".

(** [import_sstpb.SwitchMode]. *)
Inductive SwitchMode : Type := SwitchMode_Normal | SwitchMode_Import.

(** [checkpoints.TaskCheckpoint]: the field read is [TaskID]. *)
Record TaskCheckpoint : Type := { TaskID : Z }.

(** [checkpoints.DestroyedTableCheckpoint]: engine IDs are [int32]. *)
Record DestroyedTableCheckpoint : Type := {
  TableName : string;
  MinEngineID : Z;
  MaxEngineID : Z
}.

(** Modelled from the spec: [tikv.StoreState] and [tikv.Store] (package
    br/pkg/lightning/tikv, not part of the sources at hand).  A store has a
    network address and a state, one of Up, Disconnected, Tombstone and
    Offline; [main.go] reads [Address] and names [StoreStateDisconnected]. *)
Inductive StoreState : Type :=
| StoreStateUp | StoreStateDisconnected | StoreStateTombstone | StoreStateOffline.

Definition StoreState_eqb (a b : StoreState) : bool :=
  match a, b with
  | StoreStateUp, StoreStateUp | StoreStateDisconnected, StoreStateDisconnected
  | StoreStateTombstone, StoreStateTombstone | StoreStateOffline, StoreStateOffline => true
  | _, _ => false
  end.

Record Store : Type := { Address : string; State : StoreState }.

(** Handles: references to objects that live outside [main.go]. *)
Inductive CheckpointsDB : Type := CheckpointsDBRef (n : nat).
Inductive TiDBManager : Type := TiDBManagerRef (n : nat).
Inductive SQLDB : Type := SQLDBRef (n : nat).
Inductive Backend : Type := BackendRef (n : nat).
Inductive ClosedEngine : Type := ClosedEngineRef (n : nat).

(** [uuid.UUID]: sixteen bytes, as a number. *)
Definition UUID : Type := N.

(** [*os.File]: the name the file was opened with and its descriptor. *)
Record File : Type := { file_Name : string; file_fd : nat }.

(** What is handed to [fmt.Fprintln] / [fmt.Fprintf]. *)
Inductive PrintArg : Type :=
| PStr (s : string)
| PInt (z : Z)
| PErr (e : error)
| PMode (m : SwitchMode)
| PStrs (l : list string).

(** ** Calls, events and the world *)

(** A call that leaves [main.go], indexed by the type of its answer.  A Go
    result [(v, err)] is a sum: [inl err] or [inr v]; a lone [error] result
    is a [goerror]; a result that [main.go] never looks at (the [Close]
    methods, the printing functions) is [unit].  The context and TLS
    arguments are left out.  [pd_Stores] (the discovery of the stores) and
    [log_StoreError] are the two calls of [tikv.ForAllStores] as modelled
    below; [os_Create_fd] yields the descriptor of the file [os.Create]
    opens. *)
Inductive Call : Type -> Type :=
(* checkpoints *)
| checkpoints_OpenCheckpointsDB : Call (error + CheckpointsDB)
| checkpoints_IsCheckpointsDBExists : Call (error + bool)
| cpdb_Close (cpdb : CheckpointsDB) : Call unit
| cpdb_TaskCheckpoint (cpdb : CheckpointsDB) : Call (error + option TaskCheckpoint)
| cpdb_RemoveCheckpoint (cpdb : CheckpointsDB) (tableName : string) : Call goerror
| cpdb_IgnoreErrorCheckpoint (cpdb : CheckpointsDB) (tableName : string) : Call goerror
| cpdb_DestroyErrorCheckpoint (cpdb : CheckpointsDB) (tableName : string)
  : Call (error + list DestroyedTableCheckpoint)
| cpdb_DumpTables (cpdb : CheckpointsDB) (w : File) : Call goerror
| cpdb_DumpEngines (cpdb : CheckpointsDB) (w : File) : Call goerror
| cpdb_DumpChunks (cpdb : CheckpointsDB) (w : File) : Call goerror
| cpdb_GetLocalStoringTables (cpdb : CheckpointsDB) : Call (error + list (string * list Z))
(* restore, common *)
| restore_DBFromConfig : Call (error + SQLDB)
| common_TableExists (db : SQLDB) (schema table : string) : Call (error + bool)
| restore_RemoveTableMetaByTableName (db : SQLDB) (metaTable tableName : string) : Call goerror
| restore_MaybeCleanupAllMetas (db : SQLDB) (schemaName : string) (tableMetaExist : bool) : Call goerror
| restore_NewTiDBManager : Call (error + TiDBManager)
| target_Close (target : TiDBManager) : Call unit
| target_DropTable (target : TiDBManager) (tableName : string) : Call goerror
(* backend, importer, local *)
| importer_NewImporter (addr pdAddr : string) : Call (error + Backend)
| importer_Close (importer : Backend) : Call unit
| importer_UnsafeCloseEngine (importer : Backend) (tableName : string) (engineID : Z)
  : Call (error + ClosedEngine)
| importer_UnsafeCloseEngineWithUUID (importer : Backend) (tag : string) (engineUUID : UUID)
  : Call (error + ClosedEngine)
| ce_Import (ce : ClosedEngine) (regionSplitSize : Z) : Call goerror
| ce_Cleanup (ce : ClosedEngine) : Call goerror
| file_Cleanup (engineUUID : UUID) (dataDir : string) : Call goerror
(* tikv *)
| pd_Stores (pdAddr : string) : Call (error + list Store)
| tikv_Compact (addr : string) (level : Z) : Call goerror
| tikv_SwitchMode (addr : string) (m : SwitchMode) : Call goerror
| tikv_FetchMode (addr : string) : Call (error + SwitchMode)
| log_StoreError (addr : string) (err : error) : Call unit
(* os, fmt *)
| os_MkdirAll (path : string) (perm : Z) : Call goerror
| os_Create_fd (name : string) : Call (error + nat)
| File_Close (f : File) : Call unit
| fmt_Fprintln_Stderr (args : list PrintArg) : Call unit
| fmt_Fprintf_Stderr (format : string) (args : list PrintArg) : Call unit.

(** One performed call with its answer. *)
Inductive Event : Type := Ev (R : Type) (c : Call R) (r : R).
Arguments Ev {R} c r.

Definition Trace : Type := list Event.

(** What [main.go] takes from outside: the answers to its calls, which may
    depend on everything that happened before, and the functions and
    constants of other packages that it uses as values.  None of them is
    part of the sources at hand, so they are parameters:
    [filepath.Join], [strconv.Atoi] and [uuid.Parse] of the libraries;
    [backend.MakeUUID], which makes the tag and the UUID of an engine from
    the table name and the engine ID and nothing else;
    [common.UniqueTable]; the names of the two metadata tables;
    the compaction level [restore.FullLevelCompact] and the default region
    split size [config.SplitRegionSize]. *)
Class World : Type := {
  answer : forall R : Type, Trace -> Call R -> R;
  filepath_Join : string -> string -> string;
  backend_MakeUUID : string -> Z -> string * UUID;
  common_UniqueTable : string -> string -> string;
  strconv_Atoi : string -> error + Z;
  uuid_Parse : string -> error + UUID;
  restore_TableMetaTableName : string;
  restore_TaskMetaTableName : string;
  restore_FullLevelCompact : Z;
  config_SplitRegionSize : Z
}.

(** ** The monad of commands

    A command reads the history so far and yields its result with the events
    it performed. *)
Definition M (A : Type) : Type := Trace -> A * Trace.

Definition ret {A : Type} (a : A) : M A := fun _ => (a, []).

Definition bind {A B : Type} (m : M A) (k : A -> M B) : M B :=
  fun h =>
    let (a, t1) := m h in
    let (b, t2) := k a (h ++ t1) in
    (b, t1 ++ t2).

Declare Scope cmd_scope.
Delimit Scope cmd_scope with cmd.
Notation "x <- m ;; k" := (bind m (fun x => k))
  (at level 100, m at next level, right associativity) : cmd_scope.
Notation "m ;;; k" := (bind m (fun _ => k))
  (at level 100, right associativity) : cmd_scope.
Local Open Scope cmd_scope.

Definition call `{World} {R : Type} (c : Call R) : M R :=
  fun h => let r := answer R h c in (r, [Ev c r]).

(** [defer f(); body]: [f] runs when the function returns, after the result
    has been computed. *)
Definition defer {A : Type} (f : M unit) (body : M A) : M A :=
  r <- body ;; f ;;; ret r.

(** [for _, x := range l { body }], where the body may assign to a variable
    [s] declared outside the loop. *)
Fixpoint forRange {A S : Type} (l : list A) (s : S) (body : A -> S -> M S) : M S :=
  match l with
  | [] => ret s
  | x :: l' => s' <- body x s ;; forRange l' s' body
  end.

(** The result of a function whose loop is run with fuel: it returned, or
    the fuel ran out before it did. *)
Inductive outcome (A : Type) : Type :=
| Returned (a : A)
| OutOfFuel.
Arguments Returned {A} a.
Arguments OutOfFuel {A}.

(** [strings.LastIndexByte(s, c)]: the index of the last [c] in [s], or -1. *)
Fixpoint LastIndexByte_from (s : string) (c : ascii) (i found : Z) : Z :=
  match s with
  | EmptyString => found
  | String a s' => LastIndexByte_from s' c (i + 1) (if Ascii.eqb a c then i else found)
  end.

Definition strings_LastIndexByte (s : string) (c : ascii) : Z :=
  LastIndexByte_from s c 0 (-1).

(** The slices [s[:i]] and [s[i:]]. *)
Definition slice_to (s : string) (i : Z) : string := substring 0 (Z.to_nat i) s.
Definition slice_from (s : string) (i : Z) : string :=
  substring (Z.to_nat i) (String.length s - Z.to_nat i) s.

(** [(v, errors.Trace(err))] *)
Definition trace_result {A : Type} (r : error + A) : error + A :=
  match r with
  | inl err => inl (errors_AddStack err)
  | inr v => inr v
  end.

(** ** The commands of main.go *)

Section Commands.
Context `{W : World}.

(** [os.Create(name)]: the file it returns carries the name it was given. *)
Definition os_Create (name : string) : M (error + File) :=
  r <- call (os_Create_fd name) ;;
  match r with
  | inl err => ret (inl err)
  | inr fd => ret (inr {| file_Name := name; file_fd := fd |})
  end.

(** Modelled from the spec: [tikv.ForAllStores] (package br/pkg/lightning/tikv,
    not part of the sources at hand).  It discovers the stores of the fleet
    at [pdAddr], leaves out those in [excludeState] and invokes [op] on every
    remaining store; an error that [op] reports for a store is written to
    the log with the store's address, and the call succeeds unless the
    discovery failed. *)
Definition tikv_ForAllStores (pdAddr : string) (excludeState : StoreState)
    (op : Store -> M goerror) : M goerror :=
  r <- call (pd_Stores pdAddr) ;;
  match r with
  | inl err => ret (Some err)
  | inr stores =>
      forRange (filter (fun st => negb (StoreState_eqb (State st) excludeState)) stores) tt
        (fun store _ =>
           e <- op store ;;
           match e with
           | Some err => call (log_StoreError (Address store) err)
           | None => ret tt
           end) ;;;
      ret None
  end.

Definition compactCluster (cfg : Config) : M goerror :=
  tikv_ForAllStores (TiDB_PdAddr cfg) StoreStateDisconnected
    (fun store => call (tikv_Compact (Address store) restore_FullLevelCompact)).

Definition switchMode (cfg : Config) (mode : string) : M goerror :=
  let m :=
    if String.eqb mode config_ImportMode then inr SwitchMode_Import
    else if String.eqb mode config_NormalMode then inr SwitchMode_Normal
    else inl (errors_Errorf "invalid mode %s, must use %s or %s"
                [mode; config_ImportMode; config_NormalMode]) in
  match m with
  | inl err => ret err
  | inr m =>
      tikv_ForAllStores (TiDB_PdAddr cfg) StoreStateDisconnected
        (fun store => call (tikv_SwitchMode (Address store) m))
  end.

(** The function literal that [fetchMode] hands to [tikv.ForAllStores]. *)
Definition fetchMode_op (store : Store) : M goerror :=
  r <- call (tikv_FetchMode (Address store)) ;;
  match r with
  | inl err =>
      call (fmt_Fprintf_Stderr "%-30s | Error: %v\n" [PStr (Address store); PErr err])
  | inr mode =>
      call (fmt_Fprintf_Stderr "%-30s | %s mode\n" [PStr (Address store); PMode mode])
  end ;;;
  ret None.

Definition fetchMode (cfg : Config) : M goerror :=
  tikv_ForAllStores (TiDB_PdAddr cfg) StoreStateDisconnected fetchMode_op.

Definition cleanupMetas (cfg : Config) (tableName : string) : M goerror :=
  let tableName := if String.eqb tableName "all" then "" else tableName in
  r <- call restore_DBFromConfig ;;
  match r with
  | inl err => ret (errors_Trace (Some err))
  | inr db =>
      r <- call (common_TableExists db (App_MetaSchemaName cfg) restore_TableMetaTableName) ;;
      match r with
      | inl err => ret (errors_Trace (Some err))
      | inr tableMetaExist =>
          e <- (if tableMetaExist : bool then
                  let metaTableName :=
                    common_UniqueTable (App_MetaSchemaName cfg) restore_TableMetaTableName in
                  call (restore_RemoveTableMetaByTableName db metaTableName tableName)
                else ret None) ;;
          match e with
          | Some err => ret (errors_Trace (Some err))
          | None =>
              r <- call (common_TableExists db (App_MetaSchemaName cfg) restore_TaskMetaTableName) ;;
              match r with
              | inl err => ret (errors_Trace (Some err))
              | inr false => ret (errors_Trace None)
              | inr true =>
                  e <- call (restore_MaybeCleanupAllMetas db (App_MetaSchemaName cfg) tableMetaExist) ;;
                  ret (errors_Trace e)
              end
          end
      end
  end.

Definition checkpointRemove (cfg : Config) (tableName : string) : M goerror :=
  r <- call checkpoints_OpenCheckpointsDB ;;
  match r with
  | inl err => ret (errors_Trace (Some err))
  | inr cpdb =>
      defer (call (cpdb_Close cpdb))
        (r <- call (cpdb_TaskCheckpoint cpdb) ;;
         match r with
         | inl err => ret (errors_Trace (Some err))
         | inr taskCp =>
             e <- match taskCp with
                  | Some cp =>
                      if negb (TaskID cp =? 0) then cleanupMetas cfg tableName else ret None
                  | None => ret None
                  end ;;
             match e with
             | Some err => ret (errors_Trace (Some err))
             | None =>
                 e <- call (cpdb_RemoveCheckpoint cpdb tableName) ;;
                 ret (errors_Trace e)
             end
         end)
  end.

Definition checkpointErrorIgnore (cfg : Config) (tableName : string) : M goerror :=
  r <- call checkpoints_OpenCheckpointsDB ;;
  match r with
  | inl err => ret (errors_Trace (Some err))
  | inr cpdb =>
      defer (call (cpdb_Close cpdb))
        (e <- call (cpdb_IgnoreErrorCheckpoint cpdb tableName) ;;
         ret (errors_Trace e))
  end.

(** Sequencing of commands that may run out of fuel. *)
Definition andThen {A B : Type} (m : M (outcome A)) (k : A -> M (outcome B)) : M (outcome B) :=
  o <- m ;;
  match o with
  | Returned a => k a
  | OutOfFuel => ret OutOfFuel
  end.

(** [defer f()] in a function with a loop: [f] runs if the function returns. *)
Definition deferR {A : Type} (f : M unit) (body : M (outcome A)) : M (outcome A) :=
  andThen body (fun a => f ;;; ret (Returned a)).

(** [for _, table := range targetTables { body }] around a loop with fuel. *)
Fixpoint forTables {S : Type} (targetTables : list DestroyedTableCheckpoint) (s : S)
    (body : DestroyedTableCheckpoint -> S -> M (outcome S)) : M (outcome S) :=
  match targetTables with
  | [] => ret (Returned s)
  | table :: rest => andThen (body table s) (fun s' => forTables rest s' body)
  end.

(** [for engineID := min; engineID <= max; engineID++ { body }] on [int32]
    engine IDs.  The counter wraps around at [MaxInt32]; [fuel] bounds the
    number of turns. *)
Fixpoint forEngineIDs {S : Type} (fuel : nat) (engineID maxEngineID : Z) (s : S)
    (body : Z -> S -> M S) : M (outcome S) :=
  match fuel with
  | O => ret OutOfFuel
  | Datatypes.S fuel' =>
      if engineID <=? maxEngineID then
        s' <- body engineID s ;;
        forEngineIDs fuel' (int32_incr engineID) maxEngineID s' body
      else ret (Returned s)
  end.

(** The body of the first loop of [checkpointErrorDestroy]: drop one table. *)
Definition dropTable (target : TiDBManager) (table : DestroyedTableCheckpoint)
    (lastErr : goerror) : M goerror :=
  call (fmt_Fprintln_Stderr [PStr "Dropping table:"; PStr (TableName table)]) ;;;
  e <- call (target_DropTable target (TableName table)) ;;
  match e with
  | Some err =>
      call (fmt_Fprintln_Stderr [PStr "* Encountered error while dropping table:"; PErr err]) ;;;
      ret (Some err)
  | None => ret lastErr
  end.

(** The body of the engine loop for the importer backend. *)
Definition closeAndCleanupEngine (importer : Backend) (table : DestroyedTableCheckpoint)
    (engineID : Z) (lastErr : goerror) : M goerror :=
  call (fmt_Fprintln_Stderr
          [PStr "Closing and cleaning up engine:"; PStr (TableName table); PInt engineID]) ;;;
  r <- call (importer_UnsafeCloseEngine importer (TableName table) engineID) ;;
  match r with
  | inl err =>
      call (fmt_Fprintln_Stderr [PStr "* Encountered error while closing engine:"; PErr err]) ;;;
      ret (Some err)
  | inr closedEngine =>
      e <- call (ce_Cleanup closedEngine) ;;
      match e with
      | Some err => ret (Some err)
      | None => ret lastErr
      end
  end.

(** The body of the engine loop for the local backend. *)
Definition cleanupLocalEngine (cfg : Config) (table : DestroyedTableCheckpoint)
    (engineID : Z) (lastErr : goerror) : M goerror :=
  call (fmt_Fprintln_Stderr
          [PStr "Closing and cleaning up engine:"; PStr (TableName table); PInt engineID]) ;;;
  let eID := snd (backend_MakeUUID (TableName table) engineID) in
  e <- call (file_Cleanup eID (TikvImporter_SortedKVDir cfg)) ;;
  match e with
  | Some err =>
      call (fmt_Fprintln_Stderr [PStr "* Encountered error while cleanup engine:"; PErr err]) ;;;
      ret (Some err)
  | None => ret lastErr
  end.

(** [checkpointErrorDestroy] from the test of the local backend to its end. *)
Definition destroyLocalAndMetas (fuel : nat) (cfg : Config) (tableName : string)
    (targetTables : list DestroyedTableCheckpoint) (lastErr : goerror) : M (outcome goerror) :=
  andThen
    (if String.eqb (TikvImporter_Backend cfg) "local" then
       forTables targetTables lastErr
         (fun table lastErr =>
            forEngineIDs fuel (MinEngineID table) (MaxEngineID table) lastErr
              (cleanupLocalEngine cfg table))
     else ret (Returned lastErr))
    (fun lastErr =>
       lastErr <- match lastErr with
                  | None => cleanupMetas cfg tableName
                  | Some _ => ret lastErr
                  end ;;
       ret (Returned (errors_Trace lastErr))).

Definition checkpointErrorDestroy (fuel : nat) (cfg : Config) (tableName : string)
  : M (outcome goerror) :=
  r <- call checkpoints_OpenCheckpointsDB ;;
  match r with
  | inl err => ret (Returned (errors_Trace (Some err)))
  | inr cpdb =>
  deferR (call (cpdb_Close cpdb))
    (r <- call restore_NewTiDBManager ;;
     match r with
     | inl err => ret (Returned (errors_Trace (Some err)))
     | inr target =>
     deferR (call (target_Close target))
       (r <- call (cpdb_DestroyErrorCheckpoint cpdb tableName) ;;
        match r with
        | inl err => ret (Returned (errors_Trace (Some err)))
        | inr targetTables =>
            lastErr <- forRange targetTables None (dropTable target) ;;
            if String.eqb (TikvImporter_Backend cfg) "importer" then
              r <- call (importer_NewImporter (TikvImporter_Addr cfg) (TiDB_PdAddr cfg)) ;;
              match r with
              | inl err => ret (Returned (errors_Trace (Some err)))
              | inr importer =>
              deferR (call (importer_Close importer))
                (andThen
                   (forTables targetTables lastErr
                      (fun table lastErr =>
                         forEngineIDs fuel (MinEngineID table) (MaxEngineID table) lastErr
                           (closeAndCleanupEngine importer table)))
                   (destroyLocalAndMetas fuel cfg tableName targetTables))
              end
            else destroyLocalAndMetas fuel cfg tableName targetTables lastErr
        end)
     end)
  end.

Definition checkpointDump (cfg : Config) (dumpFolder : string) : M goerror :=
  r <- call checkpoints_OpenCheckpointsDB ;;
  match r with
  | inl err => ret (errors_Trace (Some err))
  | inr cpdb =>
  defer (call (cpdb_Close cpdb))
    (e <- call (os_MkdirAll dumpFolder 493) ;;
     match e with
     | Some err => ret (errors_Trace (Some err))
     | None =>
     let tablesFileName := filepath_Join dumpFolder "tables.csv" in
     r <- os_Create tablesFileName ;;
     match r with
     | inl err => ret (errors_Annotatef (Some err) "failed to create %s" [tablesFileName])
     | inr tablesFile =>
     defer (call (File_Close tablesFile))
       (let enginesFileName := filepath_Join dumpFolder "engines.csv" in
        r <- os_Create tablesFileName ;;
        match r with
        | inl err => ret (errors_Annotatef (Some err) "failed to create %s" [enginesFileName])
        | inr enginesFile =>
        defer (call (File_Close enginesFile))
          (let chunksFileName := filepath_Join dumpFolder "chunks.csv" in
           r <- os_Create chunksFileName ;;
           match r with
           | inl err => ret (errors_Annotatef (Some err) "failed to create %s" [chunksFileName])
           | inr chunksFile =>
           defer (call (File_Close chunksFile))
             (e <- call (cpdb_DumpTables cpdb tablesFile) ;;
              match e with
              | Some err => ret (errors_Trace (Some err))
              | None =>
              e <- call (cpdb_DumpEngines cpdb enginesFile) ;;
              match e with
              | Some err => ret (errors_Trace (Some err))
              | None =>
              e <- call (cpdb_DumpChunks cpdb chunksFile) ;;
              match e with
              | Some err => ret (errors_Trace (Some err))
              | None => ret None
              end
              end
              end)
           end)
        end)
     end
     end)
  end.

(** [getLocalStoringTables] up to its return statements: the named result
    [err2] and the variable [tables] that the deferred function reads. *)
Definition getLocalStoringTables_body (cfg : Config) : M (goerror * list string) :=
  if negb (String.eqb (TikvImporter_Backend cfg) config_BackendLocal) then ret (None, [])
  else
    r <- call checkpoints_IsCheckpointsDBExists ;;
    match r with
    | inl err => ret (errors_Trace (Some err), [])
    | inr false => ret (None, [])
    | inr true =>
        r <- call checkpoints_OpenCheckpointsDB ;;
        match r with
        | inl err => ret (errors_Trace (Some err), [])
        | inr cpdb =>
            defer (call (cpdb_Close cpdb))
              (r <- call (cpdb_GetLocalStoringTables cpdb) ;;
               match r with
               | inl err => ret (errors_Trace (Some err), [])
               | inr tableWithEngine => ret (None, map fst tableWithEngine)
               end)
        end
    end.

Definition getLocalStoringTables (cfg : Config) : M goerror :=
  res <- getLocalStoringTables_body cfg ;;
  let (err2, tables) := res in
  match err2 with
  | None =>
      if (Z.of_nat (List.length tables) =? 0) then
        call (fmt_Fprintln_Stderr
                [PStr "No table has lost intermediate files according to given config"])
      else
        call (fmt_Fprintln_Stderr
                [PStr "These tables are missing intermediate files:"; PStrs tables])
  | Some _ => ret tt
  end ;;;
  ret err2.

Definition unsafeCloseEngine (importer : Backend) (engine : string) : M (error + ClosedEngine) :=
  let index := strings_LastIndexByte engine ":" in
  if index >=? 0 then
    let tableName := slice_to engine index in
    match strconv_Atoi (slice_from engine (index + 1)) with
    | inl err => ret (inl (errors_AddStack err))
    | inr engineID =>
        r <- call (importer_UnsafeCloseEngine importer tableName (to_int32 engineID)) ;;
        ret (trace_result r)
    end
  else
    match uuid_Parse engine with
    | inl err => ret (inl (errors_AddStack err))
    | inr engineUUID =>
        r <- call (importer_UnsafeCloseEngineWithUUID importer "<tidb-lightning-ctl>" engineUUID) ;;
        ret (trace_result r)
    end.

Definition importEngine (cfg : Config) (engine : string) : M goerror :=
  r <- call (importer_NewImporter (TikvImporter_Addr cfg) (TiDB_PdAddr cfg)) ;;
  match r with
  | inl err => ret (errors_Trace (Some err))
  | inr importer =>
      r <- unsafeCloseEngine importer engine ;;
      match r with
      | inl err => ret (errors_Trace (Some err))
      | inr ce =>
          let regionSplitSize := to_int64 (TikvImporter_RegionSplitSize cfg) in
          let regionSplitSize :=
            if regionSplitSize =? 0 then to_int64 config_SplitRegionSize else regionSplitSize in
          e <- call (ce_Import ce regionSplitSize) ;;
          ret (errors_Trace e)
      end
  end.

Definition cleanupEngine (cfg : Config) (engine : string) : M goerror :=
  r <- call (importer_NewImporter (TikvImporter_Addr cfg) (TiDB_PdAddr cfg)) ;;
  match r with
  | inl err => ret (errors_Trace (Some err))
  | inr importer =>
      r <- unsafeCloseEngine importer engine ;;
      match r with
      | inl err => ret (errors_Trace (Some err))
      | inr ce =>
          e <- call (ce_Cleanup ce) ;;
          ret (errors_Trace e)
      end
  end.

End Commands.

(** ** Reading a trace *)

Definition err_of_sum {A : Type} (r : error + A) : goerror :=
  match r with
  | inl e => Some e
  | inr _ => None
  end.

(** The error an event's answer carries, if any. *)
Definition event_error (ev : Event) : goerror :=
  match ev with
  | Ev c r =>
      match c in Call R return R -> goerror with
      | checkpoints_OpenCheckpointsDB | checkpoints_IsCheckpointsDBExists
      | cpdb_TaskCheckpoint _ | cpdb_DestroyErrorCheckpoint _ _
      | cpdb_GetLocalStoringTables _ | restore_DBFromConfig | common_TableExists _ _ _
      | restore_NewTiDBManager | importer_NewImporter _ _
      | importer_UnsafeCloseEngine _ _ _ | importer_UnsafeCloseEngineWithUUID _ _ _
      | pd_Stores _ | tikv_FetchMode _ | os_Create_fd _ => fun r => err_of_sum r
      | cpdb_RemoveCheckpoint _ _ | cpdb_IgnoreErrorCheckpoint _ _
      | cpdb_DumpTables _ _ | cpdb_DumpEngines _ _ | cpdb_DumpChunks _ _
      | restore_RemoveTableMetaByTableName _ _ _ | restore_MaybeCleanupAllMetas _ _ _
      | target_DropTable _ _ | ce_Import _ _ | ce_Cleanup _ | file_Cleanup _ _
      | tikv_Compact _ _ | tikv_SwitchMode _ _ | os_MkdirAll _ _ => fun r => r
      | cpdb_Close _ | target_Close _ | importer_Close _ | File_Close _
      | fmt_Fprintln_Stderr _ | fmt_Fprintf_Stderr _ _ | log_StoreError _ _ => fun _ => None
      end r
  end.

(** The error of the last event of the trace that failed. *)
Fixpoint last_error (tr : Trace) : goerror :=
  match tr with
  | [] => None
  | ev :: rest =>
      match last_error rest with
      | Some e => Some e
      | None => event_error ev
      end
  end.

(** The events of a kind, in order: [f] picks what to keep of an event. *)
Definition observe {B : Type} (f : Event -> option B) (tr : Trace) : list B :=
  flat_map (fun ev => match f ev with Some b => [b] | None => [] end) tr.

Definition as_DropTable (ev : Event) : option string :=
  match ev with
  | Ev (target_DropTable _ tableName) _ => Some tableName
  | _ => None
  end.

Definition as_UnsafeCloseEngine (ev : Event) : option (Backend * string * Z) :=
  match ev with
  | Ev (importer_UnsafeCloseEngine importer tableName engineID) _ =>
      Some (importer, tableName, engineID)
  | _ => None
  end.

Definition as_file_Cleanup (ev : Event) : option (UUID * string) :=
  match ev with
  | Ev (file_Cleanup engineUUID dataDir) _ => Some (engineUUID, dataDir)
  | _ => None
  end.

Definition as_DestroyErrorCheckpoint (ev : Event)
  : option (string * (error + list DestroyedTableCheckpoint)) :=
  match ev with
  | Ev c r =>
      match c in Call R return R -> option (string * (error + list DestroyedTableCheckpoint)) with
      | cpdb_DestroyErrorCheckpoint _ tableName => fun r => Some (tableName, r)
      | _ => fun _ => None
      end r
  end.

Definition as_NewImporter (ev : Event) : option (error + Backend) :=
  match ev with
  | Ev c r =>
      match c in Call R return R -> option (error + Backend) with
      | importer_NewImporter _ _ => fun r => Some r
      | _ => fun _ => None
      end r
  end.

Definition as_TaskCheckpoint (ev : Event) : option (error + option TaskCheckpoint) :=
  match ev with
  | Ev c r =>
      match c in Call R return R -> option (error + option TaskCheckpoint) with
      | cpdb_TaskCheckpoint _ => fun r => Some r
      | _ => fun _ => None
      end r
  end.


Definition as_SwitchMode (ev : Event) : option (string * SwitchMode) :=
  match ev with
  | Ev (tikv_SwitchMode addr m) _ => Some (addr, m)
  | _ => None
  end.

Definition as_FetchMode (ev : Event) : option string :=
  match ev with
  | Ev (tikv_FetchMode addr) _ => Some addr
  | _ => None
  end.

Definition as_Import (ev : Event) : option Z :=
  match ev with
  | Ev (ce_Import _ regionSplitSize) _ => Some regionSplitSize
  | _ => None
  end.

Definition as_Create (ev : Event) : option string :=
  match ev with
  | Ev (os_Create_fd name) _ => Some name
  | _ => None
  end.

Definition as_DumpTables (ev : Event) : option File :=
  match ev with
  | Ev (cpdb_DumpTables _ w) _ => Some w
  | _ => None
  end.

Definition as_DumpEngines (ev : Event) : option File :=
  match ev with
  | Ev (cpdb_DumpEngines _ w) _ => Some w
  | _ => None
  end.

Definition as_DumpChunks (ev : Event) : option File :=
  match ev with
  | Ev (cpdb_DumpChunks _ w) _ => Some w
  | _ => None
  end.

(** An event of [cleanupMetas]. *)
Definition is_metas_event (ev : Event) : bool :=
  match ev with
  | Ev restore_DBFromConfig _ | Ev (common_TableExists _ _ _) _
  | Ev (restore_RemoveTableMetaByTableName _ _ _) _
  | Ev (restore_MaybeCleanupAllMetas _ _ _) _ => true
  | _ => false
  end.

(** The first call of [cleanupMetas]. *)
Definition is_DBFromConfig (ev : Event) : bool :=
  match ev with
  | Ev restore_DBFromConfig _ => true
  | _ => false
  end.

(** [cleanupMetas] was called: its first call is in the trace. *)
Definition cleanupMetas_attempted (tr : Trace) : bool := existsb is_DBFromConfig tr.

(** The events before [cleanupMetas] was called (all of them if it was not). *)
Fixpoint before_cleanupMetas (tr : Trace) : Trace :=
  match tr with
  | [] => []
  | ev :: rest => if is_DBFromConfig ev then [] else ev :: before_cleanupMetas rest
  end.

(** An event on the importer backend or on one of its engines. *)
Definition is_importer_event (ev : Event) : bool :=
  match ev with
  | Ev (importer_NewImporter _ _) _ | Ev (importer_Close _) _
  | Ev (importer_UnsafeCloseEngine _ _ _) _
  | Ev (importer_UnsafeCloseEngineWithUUID _ _ _) _
  | Ev (ce_Import _ _) _ | Ev (ce_Cleanup _) _ => true
  | _ => false
  end.

(** [need ev] is what [ev] asks of the event right after it; the trace
    [follows need] when every such event has a successor that meets it. *)
Fixpoint follows (need : Event -> option (Event -> Prop)) (tr : Trace) : Prop :=
  match tr with
  | [] => True
  | ev :: rest =>
      match need ev with
      | None => True
      | Some ok =>
          match rest with
          | next :: _ => ok next
          | [] => False
          end
      end /\ follows need rest
  end.

(** After a successful [UnsafeCloseEngine] comes [Cleanup] on the engine it
    returned. *)
Definition cleanup_after_close (ev : Event) : option (Event -> Prop) :=
  match ev with
  | Ev c r =>
      match c in Call R return R -> option (Event -> Prop) with
      | importer_UnsafeCloseEngine _ _ _ => fun r =>
          match r with
          | inr closedEngine =>
              Some (fun next => exists e, next = Ev (ce_Cleanup closedEngine) e)
          | inl err =>
              Some (fun next => next = Ev (fmt_Fprintln_Stderr
                      [PStr "* Encountered error while closing engine:"; PErr err]) tt)
          end
      | _ => fun _ => None
      end r
  end.

(** After a failed [DropTable] comes the line that reports the error. *)
Definition log_after_failed_drop (ev : Event) : option (Event -> Prop) :=
  match ev with
  | Ev c r =>
      match c in Call R return R -> option (Event -> Prop) with
      | target_DropTable _ _ => fun r =>
          match r with
          | Some err =>
              Some (fun next => next = Ev (fmt_Fprintln_Stderr
                      [PStr "* Encountered error while dropping table:"; PErr err]) tt)
          | None => None
          end
      | _ => fun _ => None
      end r
  end.

(** After [FetchMode] on a store comes the line with the store's address
    and the mode or the error. *)
Definition report_after_fetch (ev : Event) : option (Event -> Prop) :=
  match ev with
  | Ev c r =>
      match c in Call R return R -> option (Event -> Prop) with
      | tikv_FetchMode addr => fun r =>
          Some (fun next =>
                  next = Ev (fmt_Fprintf_Stderr
                               match r with
                               | inl _ => "%-30s | Error: %v\n"
                               | inr _ => "%-30s | %s mode\n"
                               end
                               [PStr addr;
                                match r with
                                | inl err => PErr err
                                | inr mode => PMode mode
                                end]) tt)
      | _ => fun _ => None
      end r
  end.

(** The engine IDs [min], [min+1], ..., [max]. *)
Definition engineIDs (min max : Z) : list Z :=
  map (fun i => min + Z.of_nat i) (seq 0 (Z.to_nat (max - min + 1))).

(** The engine loop over a table ends within [fuel] turns: the engine IDs
    are [int32] values below [MaxInt32], where the counter would wrap around,
    and there are fewer of them than [fuel]. *)
Definition engines_within (fuel : nat) (table : DestroyedTableCheckpoint) : Prop :=
  MinInt32 <= MinEngineID table /\
  MaxEngineID table < MaxInt32 /\
  Z.max 0 (MaxEngineID table - MinEngineID table + 1) < Z.of_nat fuel.

(** The stores [tikv.ForAllStores] visits. *)
Definition visited (excludeState : StoreState) (stores : list Store) : list Store :=
  filter (fun st => negb (StoreState_eqb (State st) excludeState)) stores.

Definition as_IsCheckpointsDBExists (ev : Event) : option (error + bool) :=
  match ev with
  | Ev c r =>
      match c in Call R return R -> option (error + bool) with
      | checkpoints_IsCheckpointsDBExists => fun r => Some r
      | _ => fun _ => None
      end r
  end.

Definition as_GetLocalStoringTables (ev : Event) : option (error + list (string * list Z)) :=
  match ev with
  | Ev c r =>
      match c in Call R return R -> option (error + list (string * list Z)) with
      | cpdb_GetLocalStoringTables _ => fun r => Some r
      | _ => fun _ => None
      end r
  end.

(** The line [getLocalStoringTables] prints when it has no table to show. *)
Definition nothing_to_show : Event :=
  Ev (fmt_Fprintln_Stderr
        [PStr "No table has lost intermediate files according to given config"]) tt.


(** [lastErr] after the events [t]: the last error of [t], or what it was. *)
Definition record_error (lastErr : goerror) (t : Trace) : goerror :=
  match last_error t with
  | Some e => Some e
  | None => lastErr
  end.

(** The events of the three loops of [checkpointErrorDestroy]. *)
Definition is_drop_phase (ev : Event) : bool :=
  match ev with
  | Ev (fmt_Fprintln_Stderr _) _ | Ev (target_DropTable _ _) _ => true
  | _ => false
  end.

Definition is_engine_phase (ev : Event) : bool :=
  match ev with
  | Ev (fmt_Fprintln_Stderr _) _ | Ev (importer_UnsafeCloseEngine _ _ _) _
  | Ev (ce_Cleanup _) _ => true
  | _ => false
  end.

Definition is_local_phase (ev : Event) : bool :=
  match ev with
  | Ev (fmt_Fprintln_Stderr _) _ | Ev (file_Cleanup _ _) _ => true
  | _ => false
  end.

(** The engines [checkpointErrorDestroy] has to close on the importer: every
    engine ID of every table, in order. *)
Definition engines_to_close (importer : Backend) (tables : list DestroyedTableCheckpoint)
  : list (Backend * string * Z) :=
  flat_map (fun table =>
              map (fun engineID => (importer, TableName table, engineID))
                  (engineIDs (MinEngineID table) (MaxEngineID table))) tables.

(** The local engine files [checkpointErrorDestroy] has to remove: for every
    engine ID of every table the UUID made from the table name and the
    engine ID, in the sorted-KV directory. *)
Definition files_to_remove `{World} (cfg : Config) (tables : list DestroyedTableCheckpoint)
  : list (UUID * string) :=
  flat_map (fun table =>
              map (fun engineID => (snd (backend_MakeUUID (TableName table) engineID),
                                    TikvImporter_SortedKVDir cfg))
                  (engineIDs (MinEngineID table) (MaxEngineID table))) tables.

(** The world answers the call [c] with [r], whatever has happened before. *)
Definition answers `{World} {R : Type} (c : Call R) (r : R) : Prop :=
  forall h : Trace, answer R h c = r.


(** ** Worlds to run the commands in *)

(** Two tables in an error state: t1 with the index engine -1 and the data
    engines 0 and 1, t2 with the data engine 0. *)
Definition demo_tables : list DestroyedTableCheckpoint :=
  [ {| TableName := "`db`.`t1`"; MinEngineID := -1; MaxEngineID := 1 |};
    {| TableName := "`db`.`t2`"; MinEngineID := 0; MaxEngineID := 0 |} ].

(** Every call succeeds. *)
Definition all_fine (R : Type) (c : Call R) : R :=
  match c in Call R return R with
  | checkpoints_OpenCheckpointsDB => inr (CheckpointsDBRef 0)
  | checkpoints_IsCheckpointsDBExists => inr true
  | cpdb_Close _ | target_Close _ | importer_Close _ | File_Close _
  | fmt_Fprintln_Stderr _ | fmt_Fprintf_Stderr _ _ | log_StoreError _ _ => tt
  | cpdb_TaskCheckpoint _ => inr (Some {| TaskID := 1 |})
  | cpdb_RemoveCheckpoint _ _ | cpdb_IgnoreErrorCheckpoint _ _
  | cpdb_DumpTables _ _ | cpdb_DumpEngines _ _ | cpdb_DumpChunks _ _
  | restore_RemoveTableMetaByTableName _ _ _ | restore_MaybeCleanupAllMetas _ _ _
  | target_DropTable _ _ | ce_Import _ _ | ce_Cleanup _ | file_Cleanup _ _
  | tikv_Compact _ _ | tikv_SwitchMode _ _ | os_MkdirAll _ _ => None
  | cpdb_DestroyErrorCheckpoint _ _ => inr demo_tables
  | cpdb_GetLocalStoringTables _ => inr [("`db`.`t1`", [0; 1])]
  | restore_DBFromConfig => inr (SQLDBRef 0)
  | common_TableExists _ _ _ => inr true
  | restore_NewTiDBManager => inr (TiDBManagerRef 0)
  | importer_NewImporter _ _ => inr (BackendRef 0)
  | importer_UnsafeCloseEngine _ _ engineID => inr (ClosedEngineRef (Z.to_nat (engineID + 1)))
  | importer_UnsafeCloseEngineWithUUID _ _ _ => inr (ClosedEngineRef 0)
  | pd_Stores _ =>
      inr [ {| Address := "10.0.0.1:20160"; State := StoreStateUp |};
            {| Address := "10.0.0.2:20160"; State := StoreStateDisconnected |};
            {| Address := "10.0.0.3:20160"; State := StoreStateUp |} ]
  | tikv_FetchMode _ => inr SwitchMode_Normal
  | os_Create_fd _ => inr 3%nat
  end.

(** [strconv.Atoi] on the decimals the examples use. *)
Definition demo_Atoi (s : string) : error + Z :=
  if String.eqb s "0" then inr 0
  else if String.eqb s "1" then inr 1
  else if String.eqb s "123" then inr 123
  else inl (ErrNew "strconv.Atoi: invalid syntax").

(** A world built around the answers [ans]; paths are joined with a slash,
    the engine UUID is a number made of the tag's length and the engine ID. *)
Definition demo_world (ans : forall R : Type, Trace -> Call R -> R) : World := {|
  answer := ans;
  filepath_Join := fun dir name => (dir ++ "/" ++ name)%string;
  backend_MakeUUID := fun tableName engineID =>
    (tableName, N.of_nat (String.length tableName) * 1000 + Z.to_N (engineID + 1))%N;
  common_UniqueTable := fun schema table => ("`" ++ schema ++ "`.`" ++ table ++ "`")%string;
  strconv_Atoi := demo_Atoi;
  uuid_Parse := fun _ => inl (ErrNew "invalid UUID");
  restore_TableMetaTableName := "table_meta";
  restore_TaskMetaTableName := "task_meta";
  restore_FullLevelCompact := -1;
  config_SplitRegionSize := 100663296
|}.

(** Every call succeeds; a file gets the next free descriptor. *)
Definition fine_world : World :=
  demo_world (fun R h c =>
    match c in Call R return R with
    | os_Create_fd _ => inr (3 + List.length h)%nat
    | other => all_fine _ other
    end).

(** Dropping the table t1 fails; everything else succeeds. *)
Definition drop_fails_world : World :=
  demo_world (fun R _ c =>
    match c in Call R return R with
    | target_DropTable _ tableName =>
        if String.eqb tableName "`db`.`t1`" then Some (ErrNew "DROP TABLE failed") else None
    | other => all_fine _ other
    end).

(** Closing engine 0 of any table and cleaning up engine 1 fail. *)
Definition engines_fail_world : World :=
  demo_world (fun R _ c =>
    match c in Call R return R with
    | importer_UnsafeCloseEngine _ _ engineID =>
        if engineID =? 0 then inl (ErrNew "engine not found")
        else inr (ClosedEngineRef (Z.to_nat (engineID + 1)))
    | ce_Cleanup (ClosedEngineRef n) =>
        if Nat.eqb n 2 then Some (ErrNew "cleanup failed") else None
    | file_Cleanup engineUUID _ =>
        if N.eqb engineUUID 9002 then Some (ErrNew "remove failed") else None
    | other => all_fine _ other
    end).

(** The mode query fails on the first store. *)
Definition fetch_fails_world : World :=
  demo_world (fun R _ c =>
    match c in Call R return R with
    | tikv_FetchMode addr =>
        if String.eqb addr "10.0.0.1:20160" then inl (ErrNew "connection refused")
        else inr SwitchMode_Import
    | other => all_fine _ other
    end).


(** There is no checkpoint store. *)
Definition no_store_world : World :=
  demo_world (fun R _ c =>
    match c in Call R return R with
    | checkpoints_IsCheckpointsDBExists => inr false
    | other => all_fine _ other
    end).

(** No table keeps local intermediate files. *)
Definition nothing_local_world : World :=
  demo_world (fun R _ c =>
    match c in Call R return R with
    | cpdb_GetLocalStoringTables _ => inr []
    | other => all_fine _ other
    end).

(** A table whose engine range ends at the largest [int32]. *)
Definition wide_range_world : World :=
  demo_world (fun R _ c =>
    match c in Call R return R with
    | cpdb_DestroyErrorCheckpoint _ _ =>
        inr [ {| TableName := "`db`.`t1`"; MinEngineID := MaxInt32; MaxEngineID := MaxInt32 |} ]
    | other => all_fine _ other
    end).

Definition demo_cfg (backend : string) : Config := {|
  TiDB_PdAddr := "10.0.0.9:2379";
  TikvImporter_Backend := backend;
  TikvImporter_Addr := "10.0.0.8:8287";
  TikvImporter_SortedKVDir := "/tmp/sorted-kv";
  TikvImporter_RegionSplitSize := 0;
  App_MetaSchemaName := "lightning_metadata"
|}.

(** A configuration with a region split size of its own. *)
Definition sized_cfg : Config := {|
  TiDB_PdAddr := "10.0.0.9:2379";
  TikvImporter_Backend := "importer";
  TikvImporter_Addr := "10.0.0.8:8287";
  TikvImporter_SortedKVDir := "/tmp/sorted-kv";
  TikvImporter_RegionSplitSize := 50331648;
  App_MetaSchemaName := "lightning_metadata"
|}.

(** ** More to read from a trace *)

(** The byte [c] occurs in [s]. *)
Fixpoint has_byte (c : ascii) (s : string) : bool :=
  match s with
  | EmptyString => false
  | String a s' => Ascii.eqb a c || has_byte c s'
  end.

Definition as_UnsafeCloseEngineWithUUID (ev : Event) : option (Backend * string * UUID) :=
  match ev with
  | Ev (importer_UnsafeCloseEngineWithUUID importer tag engineUUID) _ =>
      Some (importer, tag, engineUUID)
  | _ => None
  end.

Definition as_Cleanup (ev : Event) : option ClosedEngine :=
  match ev with
  | Ev (ce_Cleanup closedEngine) _ => Some closedEngine
  | _ => None
  end.

Definition is_importer_Close (ev : Event) : bool :=
  match ev with
  | Ev (importer_Close _) _ => true
  | _ => false
  end.

Definition as_DBFromConfig (ev : Event) : option (error + SQLDB) :=
  match ev with
  | Ev c r =>
      match c in Call R return R -> option (error + SQLDB) with
      | restore_DBFromConfig => fun r => Some r
      | _ => fun _ => None
      end r
  end.

(** A [TableExists] query: the database, the schema, the table and the answer. *)
Definition as_TableExists (ev : Event) : option (SQLDB * string * string * (error + bool)) :=
  match ev with
  | Ev c r =>
      match c in Call R return R -> option (SQLDB * string * string * (error + bool)) with
      | common_TableExists db schema table => fun r => Some (db, schema, table, r)
      | _ => fun _ => None
      end r
  end.

Definition as_RemoveTableMeta (ev : Event) : option (SQLDB * string * string) :=
  match ev with
  | Ev (restore_RemoveTableMetaByTableName db metaTable tableName) _ =>
      Some (db, metaTable, tableName)
  | _ => None
  end.

Definition as_MaybeCleanupAllMetas (ev : Event) : option (SQLDB * string * bool) :=
  match ev with
  | Ev (restore_MaybeCleanupAllMetas db schemaName tableMetaExist) _ =>
      Some (db, schemaName, tableMetaExist)
  | _ => None
  end.

(** What [main.go] opens and closes again. *)
Inductive Handle : Type :=
| HCheckpointsDB (cpdb : CheckpointsDB)
| HTiDBManager (target : TiDBManager)
| HImporter (importer : Backend)
| HFile (f : File).

(** The handle an event brings into being: a call that opens one and succeeds. *)
Definition acquired (ev : Event) : option Handle :=
  match ev with
  | Ev c r =>
      match c in Call R return R -> option Handle with
      | checkpoints_OpenCheckpointsDB => fun r =>
          match r with inr cpdb => Some (HCheckpointsDB cpdb) | inl _ => None end
      | restore_NewTiDBManager => fun r =>
          match r with inr target => Some (HTiDBManager target) | inl _ => None end
      | importer_NewImporter _ _ => fun r =>
          match r with inr importer => Some (HImporter importer) | inl _ => None end
      | os_Create_fd name => fun r =>
          match r with
          | inr fd => Some (HFile {| file_Name := name; file_fd := fd |})
          | inl _ => None
          end
      | _ => fun _ => None
      end r
  end.

(** The handle an event closes. *)
Definition released (ev : Event) : option Handle :=
  match ev with
  | Ev (cpdb_Close cpdb) _ => Some (HCheckpointsDB cpdb)
  | Ev (target_Close target) _ => Some (HTiDBManager target)
  | Ev (importer_Close importer) _ => Some (HImporter importer)
  | Ev (File_Close f) _ => Some (HFile f)
  | _ => None
  end.

Definition is_release (ev : Event) : bool :=
  match released ev with
  | Some _ => true
  | None => false
  end.

(** The command stops at the first call that fails: after it come only the
    deferred closes. *)
Fixpoint stops_at_failure (tr : Trace) : bool :=
  match tr with
  | [] => true
  | ev :: rest =>
      match event_error ev with
      | Some _ => forallb is_release rest
      | None => stops_at_failure rest
      end
  end.

(** The three dumps of [checkpointDump]. *)
Inductive Dump : Type := DumpTables | DumpEngines | DumpChunks.

(** A dump: which one, into which file, and how it went. *)
Definition as_Dump (ev : Event) : option (Dump * File * goerror) :=
  match ev with
  | Ev c r =>
      match c in Call R return R -> option (Dump * File * goerror) with
      | cpdb_DumpTables _ w => fun r => Some (DumpTables, w, r)
      | cpdb_DumpEngines _ w => fun r => Some (DumpEngines, w, r)
      | cpdb_DumpChunks _ w => fun r => Some (DumpChunks, w, r)
      | _ => fun _ => None
      end r
  end.

(** The files that were created, in order. *)
Definition as_File (ev : Event) : option File :=
  match acquired ev with
  | Some (HFile f) => Some f
  | _ => None
  end.

(** A line written to stderr with [fmt.Fprintln]. *)
Definition as_Fprintln (ev : Event) : option (list PrintArg) :=
  match ev with
  | Ev (fmt_Fprintln_Stderr args) _ => Some args
  | _ => None
  end.

(** The stage of [checkpointErrorDestroy] a call belongs to; the lines
    written to stderr belong to no stage. *)
Definition stage (ev : Event) : option nat :=
  match ev with
  | Ev checkpoints_OpenCheckpointsDB _ => Some 0%nat
  | Ev restore_NewTiDBManager _ => Some 1%nat
  | Ev (cpdb_DestroyErrorCheckpoint _ _) _ => Some 2%nat
  | Ev (target_DropTable _ _) _ => Some 3%nat
  | Ev (importer_NewImporter _ _) _ => Some 4%nat
  | Ev (importer_UnsafeCloseEngine _ _ _) _ | Ev (ce_Cleanup _) _ => Some 5%nat
  | Ev (file_Cleanup _ _) _ => Some 6%nat
  | Ev restore_DBFromConfig _ | Ev (common_TableExists _ _ _) _
  | Ev (restore_RemoveTableMetaByTableName _ _ _) _
  | Ev (restore_MaybeCleanupAllMetas _ _ _) _ => Some 7%nat
  | Ev (importer_Close _) _ => Some 8%nat
  | Ev (target_Close _) _ => Some 9%nat
  | Ev (cpdb_Close _) _ => Some 10%nat
  | _ => None
  end.

(** The numbers never go down, and stay between [lo] and [hi]. *)
Fixpoint ascending (lo hi : nat) (l : list nat) : Prop :=
  match l with
  | [] => (lo <= hi)%nat
  | a :: rest => (lo <= a)%nat /\ ascending a hi rest
  end.

(** A table whose engine range ends at the largest [int32]. *)
Definition ends_at_MaxInt32 (table : DestroyedTableCheckpoint) : Prop :=
  MinEngineID table <= MaxInt32 /\ MaxEngineID table = MaxInt32.

(** A world that knows one engine UUID. *)
Definition uuid_world : World := {|
  answer := @answer fine_world;
  filepath_Join := @filepath_Join fine_world;
  backend_MakeUUID := @backend_MakeUUID fine_world;
  common_UniqueTable := @common_UniqueTable fine_world;
  strconv_Atoi := demo_Atoi;
  uuid_Parse := fun s =>
    if String.eqb s "0f1e2d3c-4b5a-6978-8796-a5b4c3d2e1f0" then inr 77%N
    else inl (ErrNew "invalid UUID");
  restore_TableMetaTableName := "table_meta";
  restore_TaskMetaTableName := "task_meta";
  restore_FullLevelCompact := -1;
  config_SplitRegionSize := 100663296
|}.

(** A run that stops at its first failing call and returns that error. *)
Definition fails_fast (run : goerror * Trace) : Prop :=
  stops_at_failure (snd run) = true /\
  option_map Cause (fst run) = option_map Cause (last_error (snd run)).

(** A run that has closed what it opened, last opened first. *)
Definition releases_in_reverse (tr : Trace) : Prop :=
  observe released tr = rev (observe acquired tr).

(** A file creation: the name asked for and the answer. *)
Definition as_Created (ev : Event) : option (string * (error + nat)) :=
  match ev with
  | Ev c r =>
      match c in Call R return R -> option (string * (error + nat)) with
      | os_Create_fd name => fun r => Some (name, r)
      | _ => fun _ => None
      end r
  end.

(** A line on stderr that reports an error: its words and the error. *)
Definition as_error_line (ev : Event) : option (string * error) :=
  match ev with
  | Ev (fmt_Fprintln_Stderr [PStr words; PErr err]) _ => Some (words, err)
  | _ => None
  end.

(** The failed calls of the loops of [checkpointErrorDestroy] that are
    reported on stderr, with the words of the report. *)
Definition reported_failure (ev : Event) : option (string * error) :=
  match ev with
  | Ev c r =>
      match c in Call R return R -> option (string * error) with
      | target_DropTable _ _ => fun r =>
          option_map (pair "* Encountered error while dropping table:") r
      | importer_UnsafeCloseEngine _ _ _ => fun r =>
          option_map (pair "* Encountered error while closing engine:") (err_of_sum r)
      | file_Cleanup _ _ => fun r =>
          option_map (pair "* Encountered error while cleanup engine:") r
      | _ => fun _ => None
      end r
  end.

(** Every reported failure has its line, and every such line its failure. *)
Definition reports_failures (t : Trace) : Prop :=
  observe as_error_line t = observe reported_failure t.

(** Creating the engines file fails in [checkpointDump]. *)
Definition engines_file_fails_world : World :=
  demo_world (fun R h c =>
    match c in Call R return R with
    | os_Create_fd _ =>
        if (List.length h <=? 2)%nat then inr 3%nat else inl (ErrNew "too many open files")
    | other => all_fine _ other
    end).

(** The checkpoints cannot be destroyed. *)
Definition destroy_fails_world : World :=
  demo_world (fun R _ c =>
    match c in Call R return R with
    | cpdb_DestroyErrorCheckpoint _ _ => inl (ErrNew "checkpoint store unreachable")
    | other => all_fine _ other
    end).

(** Dropping t1 fails and the importer cannot be connected. *)
Definition importer_down_world : World :=
  demo_world (fun R _ c =>
    match c in Call R return R with
    | target_DropTable _ tableName =>
        if String.eqb tableName "`db`.`t1`" then Some (ErrNew "DROP TABLE failed") else None
    | importer_NewImporter _ _ => inl (ErrNew "connection refused")
    | other => all_fine _ other
    end).

(** ** Basic facts about runs and traces *)

Section Theorems.
Context `{W : World}.

Lemma bind_run {A B : Type} (m : M A) (k : A -> M B) (h : Trace) :
  bind m k h = (fst (k (fst (m h)) (h ++ snd (m h))),
                snd (m h) ++ snd (k (fst (m h)) (h ++ snd (m h)))).
Proof.
  unfold bind. destruct (m h) as [a t1]. simpl.
  destruct (k a (h ++ t1)) as [b t2]. reflexivity.
Qed.

Lemma bind_inv {A B : Type} (m : M A) (k : A -> M B) (h : Trace) (b : B) (t : Trace) :
  bind m k h = (b, t) ->
  exists a t1 t2, m h = (a, t1) /\ k a (h ++ t1) = (b, t2) /\ t = t1 ++ t2.
Proof.
  unfold bind. destruct (m h) as [a t1].
  destruct (k a (h ++ t1)) as [b' t2] eqn:E.
  intros [= <- <-]. exists a, t1, t2. auto.
Qed.

Lemma ret_inv {A : Type} (a a' : A) (h t : Trace) :
  ret a h = (a', t) -> a' = a /\ t = [].
Proof. unfold ret. intros [= <- <-]. auto. Qed.

Lemma call_inv {R : Type} (c : Call R) (h t : Trace) (r : R) :
  call c h = (r, t) -> t = [Ev c r].
Proof. unfold call. intros [= <- <-]. reflexivity. Qed.


Lemma observe_app {B : Type} (f : Event -> option B) (t1 t2 : Trace) :
  observe f (t1 ++ t2) = observe f t1 ++ observe f t2.
Proof. unfold observe. apply flat_map_app. Qed.

Lemma last_error_app (t1 t2 : Trace) :
  last_error (t1 ++ t2) =
  match last_error t2 with
  | Some e => Some e
  | None => last_error t1
  end.
Proof.
  induction t1 as [|ev t1 IH]; simpl.
  - destruct (last_error t2); reflexivity.
  - rewrite IH. destruct (last_error t2); reflexivity.
Qed.

Lemma follows_app (need : Event -> option (Event -> Prop)) (t1 t2 : Trace) :
  follows need t1 -> follows need t2 -> follows need (t1 ++ t2).
Proof.
  induction t1 as [|ev t1 IH]; simpl; auto.
  intros [Hev H1] H2. split; auto.
  destruct (need ev); auto. destruct t1; simpl; tauto.
Qed.

Lemma observe_nil {B : Type} (f : Event -> option B) (tr : Trace) :
  Forall (fun ev => f ev = None) tr -> observe f tr = [].
Proof.
  induction 1 as [|ev tr Hev _ IH]; simpl; [reflexivity|].
  rewrite Hev. exact IH.
Qed.

Lemma existsb_nil {A : Type} (p : A -> bool) (l : list A) :
  Forall (fun x => p x = false) l -> existsb p l = false.
Proof.
  induction 1 as [|x l Hx _ IH]; simpl; [reflexivity|].
  rewrite Hx. exact IH.
Qed.


Lemma record_error_app (s : goerror) (t1 t2 : Trace) :
  record_error s (t1 ++ t2) = record_error (record_error s t1) t2.
Proof.
  unfold record_error. rewrite last_error_app.
  destruct (last_error t2); reflexivity.
Qed.

Lemma Cause_AddStack (e : error) : Cause (errors_AddStack e) = Cause e.
Proof. destruct e; reflexivity. Qed.

Lemma AddStack_idem (e : error) :
  errors_AddStack (errors_AddStack e) = errors_AddStack e.
Proof. destruct e; reflexivity. Qed.

Lemma Cause_errors_Trace (err : goerror) :
  option_map Cause (errors_Trace err) = option_map Cause err.
Proof. destruct err as [e|]; simpl; [rewrite Cause_AddStack|]; reflexivity. Qed.

Lemma before_cleanupMetas_app (a b : Trace) :
  Forall (fun ev => is_DBFromConfig ev = false) a ->
  before_cleanupMetas (a ++ b) = a ++ before_cleanupMetas b.
Proof.
  induction 1 as [|ev a Hev _ IH]; simpl; [reflexivity|].
  rewrite Hev, IH. reflexivity.
Qed.

Lemma before_cleanupMetas_all (a : Trace) :
  Forall (fun ev => is_DBFromConfig ev = false) a -> before_cleanupMetas a = a.
Proof.
  intros H. rewrite <- (app_nil_r a) at 1.
  rewrite before_cleanupMetas_app by exact H. apply app_nil_r.
Qed.

Lemma before_cleanupMetas_split (a b : Trace) :
  before_cleanupMetas (a ++ b) =
  if existsb is_DBFromConfig a then before_cleanupMetas a
  else a ++ before_cleanupMetas b.
Proof.
  induction a as [|ev a IH]; simpl; [reflexivity|].
  destruct (is_DBFromConfig ev); simpl; [reflexivity|].
  rewrite IH. destruct (existsb is_DBFromConfig a); reflexivity.
Qed.

Lemma before_cleanupMetas_none (a : Trace) :
  existsb is_DBFromConfig a = false -> before_cleanupMetas a = a.
Proof.
  induction a as [|ev a IH]; simpl; [reflexivity|].
  destruct (is_DBFromConfig ev); simpl; [discriminate|].
  intros H. rewrite IH by exact H. reflexivity.
Qed.

(** Fixed-width integers and engine IDs. *)
Lemma to_int64_id (z : Z) : is_int64 z -> to_int64 z = z.
Proof.
  unfold is_int64, to_int64. intros Hz.
  rewrite Z.mod_small; lia.
Qed.

Lemma int32_incr_small (z : Z) :
  MinInt32 <= z -> z < MaxInt32 -> int32_incr z = z + 1.
Proof.
  unfold int32_incr, to_int32, MinInt32, MaxInt32. intros Hlo Hhi.
  rewrite Z.mod_small; lia.
Qed.

Lemma int32_incr_range (z : Z) : MinInt32 <= int32_incr z <= MaxInt32.
Proof.
  unfold int32_incr, to_int32, MinInt32, MaxInt32.
  pose proof (Z.mod_pos_bound (z + 1 + 2 ^ 31) (2 ^ 32)). lia.
Qed.

Lemma engineIDs_nil (lo hi : Z) : hi < lo -> engineIDs lo hi = [].
Proof.
  intros H. unfold engineIDs.
  replace (Z.to_nat (hi - lo + 1)) with 0%nat by lia. reflexivity.
Qed.

Lemma engineIDs_cons (lo hi : Z) :
  lo <= hi -> engineIDs lo hi = lo :: engineIDs (lo + 1) hi.
Proof.
  intros H. unfold engineIDs.
  replace (Z.to_nat (hi - lo + 1)) with (S (Z.to_nat (hi - (lo + 1) + 1))) by lia.
  simpl. f_equal; [lia|].
  rewrite <- seq_shift, map_map. apply map_ext. intros i. lia.
Qed.

(** ** Tactics: running a command symbolically *)

(** Takes apart a hypothesis [m h = (a, t)] along the structure of [m]. *)
Ltac inv_run :=
  repeat match goal with
  | H : bind _ _ _ = (_, _) |- _ =>
      apply bind_inv in H; destruct H as (? & ? & ? & ? & H & ->); cbv beta in H
  | H : ret _ _ = (_, _) |- _ => apply ret_inv in H; destruct H; subst
  | H : call _ _ = (_, _) |- _ => apply call_inv in H; subst
  | H : defer _ _ _ = (_, _) |- _ => unfold defer in H
  | H : deferR _ _ _ = (_, _) |- _ => unfold deferR in H
  | H : andThen _ _ _ = (_, _) |- _ => unfold andThen in H
  | H : (match ?x with _ => _ end) _ = (_, _) |- _ => destruct x eqn:?
  | u : unit |- _ => destruct u
  end.

Ltac run_in H :=
  unfold defer, deferR, andThen in H; unfold bind, call, ret in H; cbn beta iota zeta in H.

(** Unfolds a command in the goal and splits on the answers it reads. *)
Ltac run :=
  unfold defer, deferR, andThen; unfold bind, call, ret; cbn beta iota zeta.

Ltac case_answer :=
  match goal with
  | |- context [match answer ?R ?h ?c with _ => _ end] =>
      destruct (answer R h c); cbn
  | |- context [match ?x with _ => _ end] => is_var x; destruct x; cbn
  end.



(** A fact about one event, by cases on its call. *)
Ltac event_cases :=
  let c := fresh "c" in
  intros [? c ?]; destruct c; simpl; intros; try discriminate; reflexivity.

(** ** Loops *)

Lemma forRange_observe {A S B : Type} (f : Event -> option B) (g : A -> list B)
    (body : A -> S -> M S) :
  (forall x s h, observe f (snd (body x s h)) = g x) ->
  forall l s h, observe f (snd (forRange l s body h)) = flat_map g l.
Proof.
  intros Hbody. induction l as [|x l IH]; intros s h; simpl.
  - reflexivity.
  - rewrite bind_run. simpl. rewrite observe_app, Hbody, IH. reflexivity.
Qed.

Lemma forRange_follows {A S : Type} (need : Event -> option (Event -> Prop))
    (body : A -> S -> M S) :
  (forall x s h, follows need (snd (body x s h))) ->
  forall l s h, follows need (snd (forRange l s body h)).
Proof.
  intros Hbody. induction l as [|x l IH]; intros s h; simpl.
  - exact I.
  - rewrite bind_run. simpl. apply follows_app; auto.
Qed.

Lemma forRange_lastErr {A : Type} (P : Event -> Prop) (body : A -> goerror -> M goerror) :
  (forall x s h s' t, body x s h = (s', t) -> s' = record_error s t /\ Forall P t) ->
  forall l s h s' t,
    forRange l s body h = (s', t) -> s' = record_error s t /\ Forall P t.
Proof.
  intros Hbody. induction l as [|x l IH]; intros s h s' t Hrun; simpl in Hrun.
  - apply ret_inv in Hrun. destruct Hrun as [-> ->]. split; [reflexivity|constructor].
  - apply bind_inv in Hrun. destruct Hrun as (s1 & t1 & t2 & H1 & H2 & ->).
    apply Hbody in H1. destruct H1 as [-> HP1].
    apply IH in H2. destruct H2 as [-> HP2].
    split; [symmetry; apply record_error_app|apply Forall_app; auto].
Qed.

Lemma forEngineIDs_lastErr (P : Event -> Prop) (body : Z -> goerror -> M goerror) :
  (forall x s h s' t, body x s h = (s', t) -> s' = record_error s t /\ Forall P t) ->
  forall fuel lo hi s h o t,
    forEngineIDs fuel lo hi s body h = (o, t) ->
    Forall P t /\ (forall s', o = Returned s' -> s' = record_error s t).
Proof.
  intros Hbody. induction fuel as [|fuel IH]; intros lo hi s h o t Hrun; simpl in Hrun.
  - apply ret_inv in Hrun. destruct Hrun as [-> ->]. split; [constructor|discriminate].
  - destruct (lo <=? hi).
    + apply bind_inv in Hrun. destruct Hrun as (s1 & t1 & t2 & H1 & H2 & ->).
      apply Hbody in H1. destruct H1 as [-> HP1].
      apply IH in H2. destruct H2 as [HP2 Hret].
      split; [apply Forall_app; auto|].
      intros s' Hs'. rewrite record_error_app. auto.
    + apply ret_inv in Hrun. destruct Hrun as [-> ->].
      split; [constructor|]. intros s' [= <-]. reflexivity.
Qed.

Lemma forTables_lastErr (P : Event -> Prop)
    (body : DestroyedTableCheckpoint -> goerror -> M (outcome goerror)) :
  (forall x s h o t, body x s h = (o, t) ->
     Forall P t /\ (forall s', o = Returned s' -> s' = record_error s t)) ->
  forall l s h o t,
    forTables l s body h = (o, t) ->
    Forall P t /\ (forall s', o = Returned s' -> s' = record_error s t).
Proof.
  intros Hbody. induction l as [|x l IH]; intros s h o t Hrun; simpl in Hrun.
  - apply ret_inv in Hrun. destruct Hrun as [-> ->].
    split; [constructor|]. intros s' [= <-]. reflexivity.
  - unfold andThen in Hrun.
    apply bind_inv in Hrun. destruct Hrun as (o1 & t1 & t2 & H1 & H2 & ->).
    apply Hbody in H1. destruct H1 as [HP1 Hret1].
    destruct o1 as [s1|].
    + apply IH in H2. destruct H2 as [HP2 Hret2].
      split; [apply Forall_app; auto|].
      intros s' Hs'. rewrite record_error_app, <- (Hret1 s1 eq_refl). auto.
    + apply ret_inv in H2. destruct H2 as [-> ->].
      split; [rewrite app_nil_r; auto|discriminate].
Qed.

Lemma forEngineIDs_calls {S B : Type} (f : Event -> option B) (g : Z -> list B)
    (body : Z -> S -> M S) :
  (forall x s h, observe f (snd (body x s h)) = g x) ->
  forall fuel lo hi s h,
    MinInt32 <= lo -> hi < MaxInt32 -> Z.max 0 (hi - lo + 1) < Z.of_nat fuel ->
    (exists s', fst (forEngineIDs fuel lo hi s body h) = Returned s') /\
    observe f (snd (forEngineIDs fuel lo hi s body h)) = flat_map g (engineIDs lo hi).
Proof.
  intros Hbody. induction fuel as [|fuel IH]; intros lo hi s h Hmin Hmax Hfuel.
  - exfalso. simpl in Hfuel. lia.
  - simpl. destruct (lo <=? hi) eqn:E.
    + apply Z.leb_le in E. rewrite bind_run. simpl.
      rewrite int32_incr_small by (unfold MinInt32, MaxInt32 in *; lia).
      destruct (IH (lo + 1) hi (fst (body lo s h)) (h ++ snd (body lo s h)))
        as [Hret Hobs]; try (unfold MinInt32, MaxInt32 in *; lia).
      split; [exact Hret|].
      rewrite observe_app, Hbody, Hobs, (engineIDs_cons lo hi) by lia. reflexivity.
    + apply Z.leb_gt in E. simpl. rewrite engineIDs_nil by lia. eauto.
Qed.

Lemma forTables_calls {S B : Type} (f : Event -> option B)
    (g : DestroyedTableCheckpoint -> list B)
    (body : DestroyedTableCheckpoint -> S -> M (outcome S)) :
  forall l,
    Forall (fun x => forall s h,
              (exists s', fst (body x s h) = Returned s') /\
              observe f (snd (body x s h)) = g x) l ->
    forall s h,
      (exists s', fst (forTables l s body h) = Returned s') /\
      observe f (snd (forTables l s body h)) = flat_map g l.
Proof.
  induction 1 as [|x l Hx _ IH]; intros s h; simpl.
  - eauto.
  - unfold andThen. rewrite bind_run. simpl.
    destruct (Hx s h) as [[s1 Hs1] Hobs]. rewrite Hs1.
    destruct (IH s1 (h ++ snd (body x s h))) as [Hret Hobs'].
    split; [exact Hret|].
    rewrite observe_app, Hobs, Hobs'. reflexivity.
Qed.

Lemma forEngineIDs_follows {S : Type} (need : Event -> option (Event -> Prop))
    (body : Z -> S -> M S) :
  (forall x s h, follows need (snd (body x s h))) ->
  forall fuel lo hi s h, follows need (snd (forEngineIDs fuel lo hi s body h)).
Proof.
  intros Hbody. induction fuel as [|fuel IH]; intros lo hi s h; simpl; [exact I|].
  destruct (lo <=? hi); simpl; [|exact I].
  rewrite bind_run. simpl. apply follows_app; auto.
Qed.

Lemma forTables_follows {S : Type} (need : Event -> option (Event -> Prop))
    (body : DestroyedTableCheckpoint -> S -> M (outcome S)) :
  (forall x s h, follows need (snd (body x s h))) ->
  forall l s h, follows need (snd (forTables l s body h)).
Proof.
  intros Hbody. induction l as [|x l IH]; intros s h; simpl; [exact I|].
  unfold andThen. rewrite bind_run. simpl. apply follows_app; auto.
  destruct (fst (body x s h)); simpl; auto.
Qed.

(** ** The fleet-wide dispatcher *)

(** What [tikv_ForAllStores] does with an operation [op]. *)
Lemma ForAllStores_observe {B : Type} (f : Event -> option B) (g : Store -> list B)
    (pdAddr : string) (excludeState : StoreState) (op : Store -> M goerror) (h : Trace) :
  (forall c r, f (Ev (pd_Stores c) r) = None) ->
  (forall a e u, f (Ev (log_StoreError a e) u) = None) ->
  (forall st h', observe f (snd (op st h')) = g st) ->
  observe f (snd (tikv_ForAllStores pdAddr excludeState op h)) =
  match answer _ h (pd_Stores pdAddr) with
  | inl _ => []
  | inr stores => flat_map g (visited excludeState stores)
  end.
Proof.
  intros Hs Hl Hop. unfold tikv_ForAllStores. rewrite bind_run. simpl.
  unfold observe at 1. simpl. rewrite Hs. simpl.
  destruct (answer _ h (pd_Stores pdAddr)) as [err|stores]; simpl; [reflexivity|].
  rewrite bind_run. simpl. rewrite app_nil_r.
  fold (@observe B f). 
  apply forRange_observe. intros st [] h'.
  rewrite bind_run. simpl. rewrite observe_app, Hop.
  destruct (fst (op st h')); simpl.
  - unfold observe. simpl. rewrite Hl. simpl. apply app_nil_r.
  - apply app_nil_r.
Qed.

Lemma ForAllStores_follows (need : Event -> option (Event -> Prop))
    (pdAddr : string) (excludeState : StoreState) (op : Store -> M goerror) (h : Trace) :
  (forall c r, need (Ev (pd_Stores c) r) = None) ->
  (forall a e u, need (Ev (log_StoreError a e) u) = None) ->
  (forall st h', follows need (snd (op st h'))) ->
  follows need (snd (tikv_ForAllStores pdAddr excludeState op h)).
Proof.
  intros Hs Hl Hop. unfold tikv_ForAllStores. rewrite bind_run. simpl.
  rewrite Hs. split; [exact I|].
  destruct (answer _ h (pd_Stores pdAddr)) as [err|stores]; simpl; [exact I|].
  rewrite bind_run. simpl. rewrite app_nil_r.
  apply forRange_follows. intros st [] h'.
  rewrite bind_run. simpl. apply follows_app; auto.
  destruct (fst (op st h')); simpl; auto.
  rewrite Hl. auto.
Qed.

Lemma ForAllStores_result (pdAddr : string) (excludeState : StoreState)
    (op : Store -> M goerror) (h : Trace) :
  fst (tikv_ForAllStores pdAddr excludeState op h) =
  match answer _ h (pd_Stores pdAddr) with
  | inl err => Some err
  | inr _ => None
  end.
Proof.
  unfold tikv_ForAllStores. rewrite bind_run. simpl.
  destruct (answer _ h (pd_Stores pdAddr)) as [err|stores]; simpl; [reflexivity|].
  rewrite bind_run. reflexivity.
Qed.

(** ** [cleanupMetas] *)

Lemma cleanupMetas_run (cfg : Config) (tableName : string) (h : Trace) :
  (exists r rest, snd (cleanupMetas cfg tableName h) = Ev restore_DBFromConfig r :: rest) /\
  Forall (fun ev => is_metas_event ev = true) (snd (cleanupMetas cfg tableName h)) /\
  option_map Cause (fst (cleanupMetas cfg tableName h)) =
  option_map Cause (last_error (snd (cleanupMetas cfg tableName h))).
Proof.
  unfold cleanupMetas. run. cbn.
  repeat case_answer;
    (split; [eauto|split; [repeat constructor|rewrite ?Cause_AddStack; reflexivity]]).
Qed.


(** ** The loops of [checkpointErrorDestroy] *)

Lemma dropTable_run (target : TiDBManager) (table : DestroyedTableCheckpoint)
    (s : goerror) (h : Trace) (s' : goerror) (t : Trace) :
  dropTable target table s h = (s', t) ->
  s' = record_error s t /\ Forall (fun ev => is_drop_phase ev = true) t.
Proof.
  intros Hrun. unfold dropTable in Hrun. inv_run; split; try reflexivity; repeat constructor.
Qed.

Lemma dropTable_calls (target : TiDBManager) (table : DestroyedTableCheckpoint)
    (s : goerror) (h : Trace) :
  observe as_DropTable (snd (dropTable target table s h)) = [TableName table] /\
  follows log_after_failed_drop (snd (dropTable target table s h)).
Proof.
  destruct (dropTable target table s h) as [s' t] eqn:Hrun.
  unfold dropTable in Hrun. inv_run; simpl; auto.
Qed.

Lemma closeAndCleanupEngine_run (importer : Backend) (table : DestroyedTableCheckpoint)
    (engineID : Z) (s : goerror) (h : Trace) (s' : goerror) (t : Trace) :
  closeAndCleanupEngine importer table engineID s h = (s', t) ->
  s' = record_error s t /\ Forall (fun ev => is_engine_phase ev = true) t.
Proof.
  intros Hrun. unfold closeAndCleanupEngine in Hrun.
  inv_run; split; try reflexivity; repeat constructor.
Qed.

Lemma closeAndCleanupEngine_calls (importer : Backend) (table : DestroyedTableCheckpoint)
    (engineID : Z) (s : goerror) (h : Trace) :
  observe as_UnsafeCloseEngine (snd (closeAndCleanupEngine importer table engineID s h)) =
    [(importer, TableName table, engineID)] /\
  follows cleanup_after_close (snd (closeAndCleanupEngine importer table engineID s h)).
Proof.
  destruct (closeAndCleanupEngine importer table engineID s h) as [s' t] eqn:Hrun.
  unfold closeAndCleanupEngine in Hrun. inv_run; simpl; eauto 6.
Qed.

Lemma cleanupLocalEngine_run (cfg : Config) (table : DestroyedTableCheckpoint)
    (engineID : Z) (s : goerror) (h : Trace) (s' : goerror) (t : Trace) :
  cleanupLocalEngine cfg table engineID s h = (s', t) ->
  s' = record_error s t /\ Forall (fun ev => is_local_phase ev = true) t.
Proof.
  intros Hrun. unfold cleanupLocalEngine in Hrun.
  inv_run; split; try reflexivity; repeat constructor.
Qed.

Lemma cleanupLocalEngine_calls (cfg : Config) (table : DestroyedTableCheckpoint)
    (engineID : Z) (s : goerror) (h : Trace) :
  observe as_file_Cleanup (snd (cleanupLocalEngine cfg table engineID s h)) =
    [(snd (backend_MakeUUID (TableName table) engineID), TikvImporter_SortedKVDir cfg)].
Proof.
  destruct (cleanupLocalEngine cfg table engineID s h) as [s' t] eqn:Hrun.
  unfold cleanupLocalEngine in Hrun. inv_run; simpl; auto.
Qed.

Lemma dropTables_run (target : TiDBManager) (tables : list DestroyedTableCheckpoint)
    (s : goerror) (h : Trace) (s' : goerror) (t : Trace) :
  forRange tables s (dropTable target) h = (s', t) ->
  s' = record_error s t /\
  Forall (fun ev => is_drop_phase ev = true) t /\
  observe as_DropTable t = map TableName tables /\
  follows log_after_failed_drop t.
Proof.
  intros Hrun.
  destruct (forRange_lastErr _ _ (dropTable_run target) _ _ _ _ _ Hrun) as [Hs HP].
  split; [exact Hs|]. split; [exact HP|].
  replace t with (snd (forRange tables s (dropTable target) h)) by (rewrite Hrun; reflexivity).
  split.
  - rewrite (forRange_observe as_DropTable (fun table => [TableName table])).
    + reflexivity.
    + intros; apply dropTable_calls.
  - apply forRange_follows. intros; apply dropTable_calls.
Qed.

Lemma closeEngines_run (fuel : nat) (importer : Backend)
    (tables : list DestroyedTableCheckpoint) (s : goerror) (h : Trace)
    (o : outcome goerror) (t : Trace) :
  forTables tables s
    (fun table lastErr =>
       forEngineIDs fuel (MinEngineID table) (MaxEngineID table) lastErr
         (closeAndCleanupEngine importer table)) h = (o, t) ->
  Forall (fun ev => is_engine_phase ev = true) t /\
  (forall s', o = Returned s' -> s' = record_error s t) /\
  follows cleanup_after_close t /\
  (Forall (engines_within fuel) tables ->
   (exists s', o = Returned s') /\
   observe as_UnsafeCloseEngine t = engines_to_close importer tables).
Proof.
  intros Hrun.
  destruct (forTables_lastErr (fun ev => is_engine_phase ev = true) _
              (fun table s h o t =>
                 forEngineIDs_lastErr _ _ (closeAndCleanupEngine_run importer table)
                   fuel (MinEngineID table) (MaxEngineID table) s h o t)
              _ _ _ _ _ Hrun) as [HP Hs].
  split; [exact HP|]. split; [exact Hs|].
  assert (Ho : o = fst (forTables tables s
    (fun table lastErr =>
       forEngineIDs fuel (MinEngineID table) (MaxEngineID table) lastErr
         (closeAndCleanupEngine importer table)) h)) by (rewrite Hrun; reflexivity).
  assert (Ht : t = snd (forTables tables s
    (fun table lastErr =>
       forEngineIDs fuel (MinEngineID table) (MaxEngineID table) lastErr
         (closeAndCleanupEngine importer table)) h)) by (rewrite Hrun; reflexivity).
  split.
  - rewrite Ht. apply forTables_follows. intros table s0 h0.
    apply forEngineIDs_follows. intros; apply closeAndCleanupEngine_calls.
  - intros Hwithin. rewrite Ho, Ht.
    apply (forTables_calls as_UnsafeCloseEngine
             (fun table => map (fun engineID => (importer, TableName table, engineID))
                             (engineIDs (MinEngineID table) (MaxEngineID table)))).
    eapply Forall_impl; [|exact Hwithin].
    intros table (Hmin & Hmax & Hfuel) s0 h0.
    destruct (forEngineIDs_calls as_UnsafeCloseEngine
                (fun engineID => [(importer, TableName table, engineID)])
                (closeAndCleanupEngine importer table)
                (fun x s1 h1 => proj1 (closeAndCleanupEngine_calls importer table x s1 h1))
                fuel (MinEngineID table) (MaxEngineID table) s0 h0 Hmin Hmax Hfuel)
      as [Hret Hobs].
    split; [exact Hret|]. rewrite Hobs. reflexivity.
Qed.

Lemma cleanupLocalEngines_run (fuel : nat) (cfg : Config)
    (tables : list DestroyedTableCheckpoint) (s : goerror) (h : Trace)
    (o : outcome goerror) (t : Trace) :
  forTables tables s
    (fun table lastErr =>
       forEngineIDs fuel (MinEngineID table) (MaxEngineID table) lastErr
         (cleanupLocalEngine cfg table)) h = (o, t) ->
  Forall (fun ev => is_local_phase ev = true) t /\
  (forall s', o = Returned s' -> s' = record_error s t) /\
  (Forall (engines_within fuel) tables ->
   (exists s', o = Returned s') /\
   observe as_file_Cleanup t = files_to_remove cfg tables).
Proof.
  intros Hrun.
  destruct (forTables_lastErr (fun ev => is_local_phase ev = true) _
              (fun table s h o t =>
                 forEngineIDs_lastErr _ _ (cleanupLocalEngine_run cfg table)
                   fuel (MinEngineID table) (MaxEngineID table) s h o t)
              _ _ _ _ _ Hrun) as [HP Hs].
  split; [exact HP|]. split; [exact Hs|].
  intros Hwithin.
  replace o with (fst (forTables tables s
    (fun table lastErr =>
       forEngineIDs fuel (MinEngineID table) (MaxEngineID table) lastErr
         (cleanupLocalEngine cfg table)) h)) by (rewrite Hrun; reflexivity).
  replace t with (snd (forTables tables s
    (fun table lastErr =>
       forEngineIDs fuel (MinEngineID table) (MaxEngineID table) lastErr
         (cleanupLocalEngine cfg table)) h)) by (rewrite Hrun; reflexivity).
  apply (forTables_calls as_file_Cleanup
           (fun table => map (fun engineID =>
                                (snd (backend_MakeUUID (TableName table) engineID),
                                 TikvImporter_SortedKVDir cfg))
                           (engineIDs (MinEngineID table) (MaxEngineID table)))).
  eapply Forall_impl; [|exact Hwithin].
  intros table (Hmin & Hmax & Hfuel) s0 h0.
  destruct (forEngineIDs_calls as_file_Cleanup
              (fun engineID => [(snd (backend_MakeUUID (TableName table) engineID),
                                 TikvImporter_SortedKVDir cfg)])
              (cleanupLocalEngine cfg table)
              (cleanupLocalEngine_calls cfg table)
              fuel (MinEngineID table) (MaxEngineID table) s0 h0 Hmin Hmax Hfuel)
    as [Hret Hobs].
  split; [exact Hret|]. rewrite Hobs. reflexivity.
Qed.

Lemma local_phase_not_DBFromConfig (t : Trace) :
  Forall (fun ev => is_local_phase ev = true) t ->
  Forall (fun ev => is_DBFromConfig ev = false) t.
Proof. apply Forall_impl. event_cases. Qed.

(** ** The whole of [checkpointErrorDestroy] *)

(** [checkpointErrorDestroy] from the test of the local backend on. *)
Lemma destroyLocalAndMetas_run (fuel : nat) (cfg : Config) (tableName : string)
    (tables : list DestroyedTableCheckpoint) (s : goerror) (h : Trace)
    (o : outcome goerror) (t : Trace) :
  destroyLocalAndMetas fuel cfg tableName tables s h = (o, t) ->
  Forall (fun ev => is_local_phase ev || is_metas_event ev = true) t /\
  (forall r, o = Returned r ->
     option_map Cause r = option_map Cause (record_error s t) /\
     (cleanupMetas_attempted t = true <-> record_error s (before_cleanupMetas t) = None)) /\
  (o = OutOfFuel -> cleanupMetas_attempted t = false) /\
  (TikvImporter_Backend cfg <> "local" -> observe as_file_Cleanup t = []) /\
  (Forall (engines_within fuel) tables ->
   (exists r, o = Returned r) /\
   (TikvImporter_Backend cfg = "local" ->
    observe as_file_Cleanup t = files_to_remove cfg tables)).
Proof.
  intros Hrun. unfold destroyLocalAndMetas, andThen in Hrun.
  apply bind_inv in Hrun. destruct Hrun as (o1 & t1 & t2 & H1 & H2 & ->).
  assert (Hloc : Forall (fun ev => is_local_phase ev = true) t1 /\
                 (forall s', o1 = Returned s' -> s' = record_error s t1) /\
                 (TikvImporter_Backend cfg <> "local" -> t1 = []) /\
                 (Forall (engines_within fuel) tables ->
                  (exists s', o1 = Returned s') /\
                  (TikvImporter_Backend cfg = "local" ->
                   observe as_file_Cleanup t1 = files_to_remove cfg tables))).
  { destruct (String.eqb (TikvImporter_Backend cfg) "local") eqn:E.
    - apply String.eqb_eq in E.
      apply cleanupLocalEngines_run in H1. destruct H1 as (HP & Hs & Hcalls).
      repeat split; auto; try tauto; apply Hcalls; auto.
    - apply String.eqb_neq in E. apply ret_inv in H1. destruct H1 as [-> ->].
      repeat split; auto; try tauto; eauto.
      intros s' [= <-]. reflexivity. }
  clear H1. destruct Hloc as (HP1 & Hs1 & Hother & Hcalls).
  destruct o1 as [s1|].
  - specialize (Hs1 s1 eq_refl). subst s1.
    apply bind_inv in H2. destruct H2 as (e & tm & t3 & Hm & H3 & ->).
    apply ret_inv in H3. destruct H3 as [-> ->]. rewrite app_nil_r.
    destruct (record_error s t1) as [e0|] eqn:Es1.
    + apply ret_inv in Hm. destruct Hm as [-> ->]. rewrite app_nil_r.
      split; [eapply Forall_impl; [|exact HP1]; intros ev ->; reflexivity|].
      split; [|split; [discriminate|split]].
      * intros r [= <-]. rewrite Es1. split; [apply (Cause_errors_Trace (Some e0))|].
        rewrite (before_cleanupMetas_all t1) by (apply local_phase_not_DBFromConfig; auto).
        rewrite Es1. unfold cleanupMetas_attempted.
        rewrite existsb_nil by (apply local_phase_not_DBFromConfig; auto).
        split; discriminate.
      * intros Hne. rewrite (Hother Hne). reflexivity.
      * intros Hw. split; [eauto|]. apply Hcalls; auto.
    + pose proof (cleanupMetas_run cfg tableName (h ++ t1)) as ((r0 & rest0 & Hstart) & Hall & Hcause).
      rewrite Hm in Hstart, Hall, Hcause. simpl in Hstart, Hall, Hcause.
      split; [apply Forall_app; split;
              [eapply Forall_impl; [|exact HP1]; intros ev ->; reflexivity
              |eapply Forall_impl; [|exact Hall]; intros ev ->; apply orb_true_r]|].
      split; [|split; [discriminate|split]].
      * intros r [= <-]. rewrite record_error_app, Es1. split.
        -- rewrite Cause_errors_Trace. unfold record_error. destruct e; simpl in *.
           ++ destruct (last_error tm); simpl in *; congruence.
           ++ destruct (last_error tm); simpl in *; congruence.
        -- rewrite before_cleanupMetas_app by (apply local_phase_not_DBFromConfig; auto).
           rewrite Hstart. simpl. rewrite app_nil_r, Es1.
           unfold cleanupMetas_attempted. rewrite existsb_app. simpl.
           rewrite orb_true_r. tauto.
      * intros Hne. rewrite observe_app, (Hother Hne). simpl.
        apply observe_nil. eapply Forall_impl; [|exact Hall]. event_cases.
      * intros Hw. split; [eauto|]. intros Hb.
        rewrite observe_app, (proj2 (Hcalls Hw) Hb).
        rewrite (observe_nil as_file_Cleanup tm); [apply app_nil_r|].
        eapply Forall_impl; [|exact Hall]. event_cases.
  - apply ret_inv in H2. destruct H2 as [-> ->]. rewrite app_nil_r.
    split; [eapply Forall_impl; [|exact HP1]; intros ev ->; reflexivity|].
    split; [discriminate|]. split; [|split].
    + intros _. apply existsb_nil. apply local_phase_not_DBFromConfig; auto.
    + intros Hne. rewrite (Hother Hne). reflexivity.
    + intros Hw. destruct (proj1 (Hcalls Hw)) as [s' Hs']. discriminate.
Qed.

Ltac ced_pieces :=
  repeat match goal with
  | H : forRange _ _ (dropTable _) _ = (_, _) |- _ =>
      apply dropTables_run in H;
      let Hs := fresh "Hdrops" in let HP := fresh "Hdrop_phase" in
      let Hc := fresh "Hdrop_calls" in let Hf := fresh "Hdrop_logged" in
      destruct H as (Hs & HP & Hc & Hf)
  | H : forTables _ _ _ _ = (_, _) |- _ =>
      apply closeEngines_run in H;
      let HP := fresh "Hengine_phase" in let Hs := fresh "Hengines" in
      let Hf := fresh "Hengine_cleanup" in let Hc := fresh "Hengine_calls" in
      destruct H as (HP & Hs & Hf & Hc)
  | H : destroyLocalAndMetas _ _ _ _ _ _ = (_, _) |- _ =>
      apply destroyLocalAndMetas_run in H;
      let HP := fresh "Hlocal_phase" in let Hs := fresh "Hlocal" in
      let Ho := fresh "Hlocal_fuel" in
      let Hn := fresh "Hlocal_none" in let Hc := fresh "Hlocal_calls" in
      destruct H as (HP & Hs & Ho & Hn & Hc)
  end.

Ltac nil_observe f :=
  repeat match goal with
  | H : Forall _ ?t |- context [observe f ?t] =>
      rewrite (observe_nil f t) by (eapply Forall_impl; [|exact H]; event_cases)
  | H : Forall _ ?t, H' : context [observe f ?t] |- _ =>
      rewrite (observe_nil f t) in H' by (eapply Forall_impl; [|exact H]; event_cases)
  end.

Ltac ced_cases Hrun :=
  unfold checkpointErrorDestroy in Hrun; inv_run; ced_pieces;
  rewrite ?observe_app in *; simpl in *.

Ltac nil_existsb p :=
  repeat match goal with
  | H : Forall _ ?t |- context [existsb p ?t] =>
      rewrite (existsb_nil p t) by (eapply Forall_impl; [|exact H]; event_cases)
  end.

Ltac ced_returned :=
  repeat match goal with
  | H : Returned _ = Returned _ |- _ => injection H as H; subst
  | H : OutOfFuel = Returned _ |- _ => discriminate H
  | H : Returned _ = OutOfFuel |- _ => discriminate H
  | H : forall s', Returned ?a = Returned s' -> _ |- _ => specialize (H a eq_refl)
  end.










Lemma ced_metas (fuel : nat) (cfg : Config) (tableName : string) (h : Trace)
    (r : goerror) (tr : Trace) :
  checkpointErrorDestroy fuel cfg tableName h = (Returned r, tr) ->
  cleanupMetas_attempted tr = true <-> last_error (before_cleanupMetas tr) = None.
Proof.
  intros Hrun. ced_cases Hrun; ced_returned; try (split; discriminate).
  all: try destruct Hlocal as [_ Hlocal]; subst.
  all: unfold cleanupMetas_attempted in *.
  all: repeat (first [rewrite before_cleanupMetas_split | rewrite existsb_app | progress simpl]).
  all: nil_existsb is_DBFromConfig; simpl.
  all: try match goal with
       | |- context [existsb is_DBFromConfig ?t] =>
           let E := fresh "E" in
           destruct (existsb is_DBFromConfig t) eqn:E;
           [|rewrite (before_cleanupMetas_none _ E) in *]
       end.
  all: simpl; unfold record_error in *.
  all: repeat (first [rewrite last_error_app | progress simpl]).
  all: repeat match goal with
       | |- context [last_error (before_cleanupMetas ?t)] =>
           destruct (last_error (before_cleanupMetas t)); simpl in *
       | |- context [last_error ?t] => is_var t; destruct (last_error t); simpl in *
       | H : context [last_error ?t] |- _ => is_var t; destruct (last_error t); simpl in *
       end.
  all: try tauto.
  all: try (split; intros; discriminate).
Qed.

Lemma ced_metas_out_of_fuel (fuel : nat) (cfg : Config) (tableName : string) (h : Trace)
    (tr : Trace) :
  checkpointErrorDestroy fuel cfg tableName h = (OutOfFuel, tr) ->
  cleanupMetas_attempted tr = false.
Proof.
  intros Hrun. ced_cases Hrun; ced_returned; try discriminate.
  all: unfold cleanupMetas_attempted in *.
  all: repeat (first [rewrite existsb_app | progress simpl]).
  all: nil_existsb is_DBFromConfig; simpl.
  all: try rewrite Hlocal_fuel by reflexivity; reflexivity.
Qed.



(** ** The claims *)

(** Where [checkpointDump] writes: whatever the collaborators answer, every
    sink handed to [DumpTables] and every sink handed to [DumpEngines] is a
    file opened under the name of the tables file, no file is ever created
    under another name than that of the tables file or of the chunks file,
    and a dump that succeeds has written the engines to a file of the same
    name as the tables. *)
Lemma checkpointDump_sinks (cfg : Config) (dumpFolder : string) (h : Trace) :
  let tr := snd (checkpointDump cfg dumpFolder h) in
  let tablesFileName := filepath_Join dumpFolder "tables.csv" in
  let chunksFileName := filepath_Join dumpFolder "chunks.csv" in
  Forall (fun w => file_Name w = tablesFileName)
         (observe as_DumpTables tr ++ observe as_DumpEngines tr) /\
  Forall (fun name => name = tablesFileName \/ name = chunksFileName)
         (observe as_Create tr) /\
  (fst (checkpointDump cfg dumpFolder h) = None ->
   exists wt we,
     observe as_DumpTables tr = [wt] /\ observe as_DumpEngines tr = [we] /\
     file_Name we = file_Name wt).
Proof.
  destruct (checkpointDump cfg dumpFolder h) as [res tr] eqn:Hrun. simpl.
  unfold checkpointDump, os_Create in Hrun.
  inv_run; simpl;
    (split; [repeat constructor|split; [repeat (constructor; auto)|]]);
    intros; try discriminate; eauto.
Qed.

(** C2 (as amended): [checkpointErrorDestroy] calls [cleanupMetas] exactly
    when it gets to its end with no error at all among the events before:
    the function returned from its loops, and neither a fatal step nor a
    table drop nor an engine cleanup has failed. *)
Theorem checkpointErrorDestroy_cleanupMetas_guard (fuel : nat) (cfg : Config)
    (tableName : string) (h : Trace) :
  let run := checkpointErrorDestroy fuel cfg tableName h in
  cleanupMetas_attempted (snd run) = true <->
  (exists r, fst run = Returned r) /\
  last_error (before_cleanupMetas (snd run)) = None.
Proof.
  destruct (checkpointErrorDestroy fuel cfg tableName h) as [res tr] eqn:Hrun. simpl.
  destruct res as [r|].
  - rewrite (ced_metas _ _ _ _ _ _ Hrun). split; [eauto|tauto].
  - rewrite (ced_metas_out_of_fuel _ _ _ _ _ Hrun).
    split; [discriminate|]. intros [[r Hr] _]. discriminate.
Qed.




(** C4: a mode string other than "import" and "normal" makes [switchMode]
    return the error at once, with no call made at all; for "import" and
    for "normal", [SwitchMode] with the matching mode is sent to every store
    of the fleet that is not left out, in order. *)
Theorem switchMode_dispatch (cfg : Config) (mode : string) (h : Trace) :
  (mode <> config_ImportMode -> mode <> config_NormalMode ->
   switchMode cfg mode h =
   (errors_Errorf "invalid mode %s, must use %s or %s"
      [mode; config_ImportMode; config_NormalMode], []))
  /\
  (forall m : SwitchMode,
     (mode = config_ImportMode /\ m = SwitchMode_Import) \/
     (mode = config_NormalMode /\ m = SwitchMode_Normal) ->
     observe as_SwitchMode (snd (switchMode cfg mode h)) =
     match answer _ h (pd_Stores (TiDB_PdAddr cfg)) with
     | inl _ => []
     | inr stores => map (fun st => (Address st, m)) (visited StoreStateDisconnected stores)
     end).
Proof.
  split.
  - intros Hi Hn. unfold switchMode.
    apply String.eqb_neq in Hi. apply String.eqb_neq in Hn.
    rewrite Hi, Hn. reflexivity.
  - intros m Hm.
    assert (Hsw : switchMode cfg mode h =
                  tikv_ForAllStores (TiDB_PdAddr cfg) StoreStateDisconnected
                    (fun store => call (tikv_SwitchMode (Address store) m)) h).
    { unfold switchMode. destruct Hm as [[-> ->]|[-> ->]]; reflexivity. }
    rewrite Hsw.
    rewrite (ForAllStores_observe as_SwitchMode (fun st => [(Address st, m)])).
    + destruct (answer _ h (pd_Stores (TiDB_PdAddr cfg))); reflexivity.
    + reflexivity.
    + reflexivity.
    + reflexivity.
Qed.


(** C8: [getLocalStoringTables] returns nil and prints that no table has
    lost intermediate files, and nothing else, when the backend is not the
    local one (no call is made at all), when the checkpoint store does not
    exist (the one call is the question whether it exists), and when the
    store exists, opens and reports no table (the store is closed before the
    line is printed). *)
Theorem getLocalStoringTables_nothing_to_show (cfg : Config) (h : Trace) :
  (TikvImporter_Backend cfg <> config_BackendLocal ->
   getLocalStoringTables cfg h = (None, [nothing_to_show])) /\
  (TikvImporter_Backend cfg = config_BackendLocal ->
   answer _ h checkpoints_IsCheckpointsDBExists = inr false ->
   getLocalStoringTables cfg h =
   (None, [Ev checkpoints_IsCheckpointsDBExists (inr false); nothing_to_show])) /\
  (forall cpdb,
     TikvImporter_Backend cfg = config_BackendLocal ->
     answer _ h checkpoints_IsCheckpointsDBExists = inr true ->
     answers checkpoints_OpenCheckpointsDB (inr cpdb) ->
     answers (cpdb_GetLocalStoringTables cpdb) (inr []) ->
     getLocalStoringTables cfg h =
     (None, [Ev checkpoints_IsCheckpointsDBExists (inr true);
             Ev checkpoints_OpenCheckpointsDB (inr cpdb);
             Ev (cpdb_GetLocalStoringTables cpdb) (inr []);
             Ev (cpdb_Close cpdb) tt;
             nothing_to_show])).
Proof.
  split; [|split].
  - intros Hb. apply String.eqb_neq in Hb.
    unfold getLocalStoringTables, getLocalStoringTables_body. rewrite Hb. simpl.
    unfold bind, call, ret; simpl. destruct (answer unit _ _). reflexivity.
  - intros Hb Hexists.
    unfold getLocalStoringTables, getLocalStoringTables_body.
    rewrite Hb, String.eqb_refl. simpl. run. rewrite Hexists. cbn.
    destruct (answer unit _ _). reflexivity.
  - intros cpdb Hb Hexists Hopen Htables.
    unfold getLocalStoringTables, getLocalStoringTables_body.
    rewrite Hb, String.eqb_refl. simpl. run. rewrite Hexists. cbn.
    rewrite (Hopen _). cbn. rewrite (Htables _). cbn.
    repeat match goal with
           | |- context [answer unit ?hh ?c] => destruct (answer unit hh c)
           end.
    reflexivity.
Qed.

Lemma fetchMode_op_run (store : Store) (h : Trace) :
  fst (fetchMode_op store h) = None /\
  observe as_FetchMode (snd (fetchMode_op store h)) = [Address store] /\
  follows report_after_fetch (snd (fetchMode_op store h)).
Proof.
  unfold fetchMode_op. rewrite !bind_run. simpl.
  destruct (answer _ h (tikv_FetchMode (Address store))) as [err|mode]; simpl.
  - repeat split. destruct (answer unit _ _). reflexivity.
  - repeat split. destruct (answer unit _ _). reflexivity.
Qed.

(** C9: the function [fetchMode] hands to [tikv.ForAllStores] always
    returns nil; every mode query is followed by the line that prints the
    store's address with the mode or the error; and when the stores were
    discovered, every store that is not left out is queried and [fetchMode]
    returns nil, whatever the queries answered. *)
Theorem fetchMode_reports_store_errors_inline (cfg : Config) (h : Trace) :
  (forall (store : Store) (h' : Trace), fst (fetchMode_op store h') = None) /\
  follows report_after_fetch (snd (fetchMode cfg h)) /\
  match answer _ h (pd_Stores (TiDB_PdAddr cfg)) with
  | inl err =>
      fst (fetchMode cfg h) = Some err /\
      observe as_FetchMode (snd (fetchMode cfg h)) = []
  | inr stores =>
      fst (fetchMode cfg h) = None /\
      observe as_FetchMode (snd (fetchMode cfg h)) =
      map Address (visited StoreStateDisconnected stores)
  end.
Proof.
  split; [intros; apply fetchMode_op_run|].
  split.
  - apply ForAllStores_follows; try reflexivity.
    intros; apply fetchMode_op_run.
  - unfold fetchMode. rewrite ForAllStores_result.
    rewrite (ForAllStores_observe as_FetchMode (fun st => [Address st]));
      [ | reflexivity | reflexivity | intros; apply fetchMode_op_run ].
    destruct (answer _ h (pd_Stores (TiDB_PdAddr cfg))) as [err|stores];
      split; try reflexivity.
Qed.

(** C10: every [Import] that [importEngine] performs gets, as region split
    size, the configured [TikvImporter.RegionSplitSize] when that is not
    zero and [config.SplitRegionSize] otherwise; an [importEngine] that
    succeeds has performed it; and the size is never zero when the default
    is not. *)
Theorem importEngine_region_split_size (cfg : Config) (engine : string) (h : Trace)
    (res : goerror) (tr : Trace) :
  is_int64 (TikvImporter_RegionSplitSize cfg) ->
  importEngine cfg engine h = (res, tr) ->
  let expected :=
    if TikvImporter_RegionSplitSize cfg =? 0 then to_int64 config_SplitRegionSize
    else TikvImporter_RegionSplitSize cfg in
  (forall size, In size (observe as_Import tr) -> size = expected) /\
  (res = None -> observe as_Import tr = [expected]) /\
  (to_int64 config_SplitRegionSize <> 0 -> ~ In 0 (observe as_Import tr)).
Proof.
  intros Hrange Hrun expected.
  assert (Hshape : observe as_Import tr = [] /\ res <> None \/
                   observe as_Import tr = [expected]).
  { unfold importEngine, unsafeCloseEngine in Hrun.
    rewrite (to_int64_id _ Hrange) in Hrun. fold expected in Hrun.
    inv_run; simpl;
      solve [right; reflexivity | left; split; [reflexivity|discriminate]]. }
  split; [|split].
  - intros size Hin. destruct Hshape as [[Hnil _] | Heq]; [rewrite Hnil in Hin; destruct Hin|].
    rewrite Heq in Hin. destruct Hin as [Hz|[]]. symmetry. exact Hz.
  - intros ->. destruct Hshape as [[_ Hne] | Heq]; congruence.
  - intros Hdef Hin. destruct Hshape as [[Hnil _]|Heq].
    + rewrite Hnil in Hin. exact Hin.
    + rewrite Heq in Hin. destruct Hin as [Hz|[]].
      unfold expected in Hz.
      destruct (TikvImporter_RegionSplitSize cfg =? 0) eqn:E.
      * congruence.
      * apply Z.eqb_neq in E. congruence.
Qed.

(** Why the engine ranges must stay below [MaxInt32]: when [MaxEngineID] is
    the largest [int32], the test [engineID <= MaxEngineID] holds for every
    [int32] and the loop never ends, whatever the fuel. *)
Lemma forEngineIDs_never_ends_at_MaxInt32 {S : Type} (body : Z -> S -> M S) :
  forall (fuel : nat) (lo : Z) (s : S) (h : Trace),
    lo <= MaxInt32 ->
    fst (forEngineIDs fuel lo MaxInt32 s body h) = OutOfFuel.
Proof.
  induction fuel as [|fuel IH]; intros lo s h Hlo; simpl; [reflexivity|].
  apply Z.leb_le in Hlo. rewrite Hlo. rewrite bind_run. simpl.
  apply IH. apply int32_incr_range.
Qed.

(** ** Further properties of the commands *)

(** *** The engine named on the command line *)

Lemma LastIndexByte_from_absent (c : ascii) (s : string) :
  has_byte c s = false ->
  forall i found, LastIndexByte_from s c i found = found.
Proof.
  induction s as [|a s IH]; simpl; intros Habs i found; [reflexivity|].
  apply orb_false_elim in Habs. destruct Habs as [Ha Hs].
  rewrite Ha. apply IH. exact Hs.
Qed.

Lemma LastIndexByte_from_last (c : ascii) (t u : string) :
  has_byte c u = false ->
  forall i found,
    LastIndexByte_from (t ++ String c u) c i found = i + Z.of_nat (String.length t).
Proof.
  intros Habs. induction t as [|a t IH]; intros i found; simpl String.append.
  - simpl. rewrite Ascii.eqb_refl.
    rewrite (LastIndexByte_from_absent c u Habs). lia.
  - cbn [LastIndexByte_from String.length]. rewrite IH. lia.
Qed.

Lemma slice_to_prefix (t u : string) :
  slice_to (t ++ u) (Z.of_nat (String.length t)) = t.
Proof.
  unfold slice_to. rewrite Nat2Z.id.
  induction t as [|a t IH]; simpl.
  - destruct u; reflexivity.
  - rewrite IH. reflexivity.
Qed.

Lemma slice_from_suffix (c : ascii) (t u : string) :
  slice_from (t ++ String c u) (Z.of_nat (String.length t) + 1) = u.
Proof.
  unfold slice_from.
  replace (Z.to_nat (Z.of_nat (String.length t) + 1)) with (S (String.length t)) by lia.
  induction t as [|a t IH]; simpl.
  - rewrite Nat.sub_0_r. clear. induction u as [|b u IH]; simpl; [reflexivity|].
    rewrite IH. reflexivity.
  - exact IH.
Qed.

(** A string with the byte [c] ends in a [c] followed by a part without. *)
Lemma has_byte_split (c : ascii) (s : string) :
  has_byte c s = true ->
  exists t u, s = (t ++ String c u)%string /\ has_byte c u = false.
Proof.
  induction s as [|a s IH]; simpl; intros Hs; [discriminate|].
  destruct (has_byte c s) eqn:Hrest.
  - destruct (IH eq_refl) as (t & u & -> & Hu).
    exists (String a t), u. auto.
  - rewrite orb_false_r in Hs. apply Ascii.eqb_eq in Hs. subst a.
    exists EmptyString, s. auto.
Qed.

Lemma unsafeCloseEngine_colon (importer : Backend) (tableName suffix : string) (h : Trace) :
  has_byte ":" suffix = false ->
  unsafeCloseEngine importer (tableName ++ ":" ++ suffix) h =
  match strconv_Atoi suffix with
  | inl err => (inl (errors_AddStack err), [])
  | inr engineID =>
      let c := importer_UnsafeCloseEngine importer tableName (to_int32 engineID) in
      (trace_result (answer _ h c), [Ev c (answer _ h c)])
  end.
Proof.
  intros Habs. unfold unsafeCloseEngine, strings_LastIndexByte.
  change (tableName ++ ":" ++ suffix)%string with (tableName ++ String ":" suffix)%string.
  rewrite (LastIndexByte_from_last _ tableName suffix Habs). rewrite Z.add_0_l.
  replace (Z.of_nat (String.length tableName) >=? 0) with true
    by (symmetry; apply Z.geb_le; lia).
  rewrite slice_from_suffix, slice_to_prefix.
  destruct (strconv_Atoi suffix); reflexivity.
Qed.

(** X1 [unsafeCloseEngine]: an engine given as [table:suffix], where the
    suffix holds no colon, is split at that colon, the last one, so the
    table name may hold colons itself.  If [strconv.Atoi] rejects the suffix
    its error is returned through [errors.Trace] and the importer is not
    called at all; otherwise the importer is asked exactly once to close the
    engine of that table whose ID is the number converted to [int32], and
    its answer is returned, an error through [errors.Trace] (which adds a
    stack trace unless the error carries one already). *)
Theorem unsafeCloseEngine_splits_at_last_colon (importer : Backend)
    (tableName suffix : string) (h : Trace) :
  has_byte ":" suffix = false ->
  unsafeCloseEngine importer (tableName ++ ":" ++ suffix) h =
  match strconv_Atoi suffix with
  | inl err => (inl (errors_AddStack err), [])
  | inr engineID =>
      let c := importer_UnsafeCloseEngine importer tableName (to_int32 engineID) in
      (trace_result (answer _ h c), [Ev c (answer _ h c)])
  end.
Proof. apply unsafeCloseEngine_colon. Qed.

(** X2 [unsafeCloseEngine]: an engine without a colon is read as a UUID.  If
    [uuid.Parse] rejects it its error is returned through [errors.Trace]
    with no call made; otherwise the importer is asked exactly once to close
    the engine of that UUID under the tag [<tidb-lightning-ctl>], and its
    answer is returned, an error through [errors.Trace].  An engine with a
    colon is never looked up by UUID, whatever [uuid.Parse] would make of
    it. *)
Theorem unsafeCloseEngine_uuid_without_colon (importer : Backend) (engine : string)
    (h : Trace) :
  (has_byte ":" engine = false ->
   unsafeCloseEngine importer engine h =
   match uuid_Parse engine with
   | inl err => (inl (errors_AddStack err), [])
   | inr engineUUID =>
       let c := importer_UnsafeCloseEngineWithUUID importer "<tidb-lightning-ctl>" engineUUID in
       (trace_result (answer _ h c), [Ev c (answer _ h c)])
   end) /\
  (has_byte ":" engine = true ->
   observe as_UnsafeCloseEngineWithUUID (snd (unsafeCloseEngine importer engine h)) = []).
Proof.
  split.
  - intros Habs. unfold unsafeCloseEngine, strings_LastIndexByte.
    rewrite (LastIndexByte_from_absent _ engine Habs). simpl.
    destruct (uuid_Parse engine); reflexivity.
  - intros Hcolon. destruct (has_byte_split _ _ Hcolon) as (t & u & -> & Hu).
    change (t ++ String ":" u)%string with (t ++ ":" ++ u)%string.
    rewrite (unsafeCloseEngine_colon importer t u h Hu).
    destruct (strconv_Atoi u); reflexivity.
Qed.

Lemma unsafeCloseEngine_run (importer : Backend) (engine : string) (h : Trace)
    (r : error + ClosedEngine) (t : Trace) :
  unsafeCloseEngine importer engine h = (r, t) ->
  observe as_Cleanup t = [] /\ observe as_Import t = [] /\
  existsb is_importer_Close t = false /\
  (forall ce, r = inr ce -> exists c : Call (error + ClosedEngine), t = [Ev c (inr ce)]).
Proof.
  intros Hrun. unfold unsafeCloseEngine in Hrun.
  destruct (strings_LastIndexByte engine ":" >=? 0);
    [destruct (strconv_Atoi _)|destruct (uuid_Parse engine)]; inv_run.
  all: repeat split; try reflexivity; intros ce Hce; try discriminate.
  all: match goal with x : (error + ClosedEngine)%type |- _ => destruct x end.
  all: simpl in Hce; try discriminate; injection Hce as ->; eexists; reflexivity.
Qed.

Lemma importEngine_run (cfg : Config) (engine : string) (h : Trace)
    (res : goerror) (tr : Trace) :
  importEngine cfg engine h = (res, tr) ->
  observe as_Cleanup tr = [] /\ existsb is_importer_Close tr = false /\
  (res = None ->
   exists importer (close : Call (error + ClosedEngine)) ce size,
     tr = [Ev (importer_NewImporter (TikvImporter_Addr cfg) (TiDB_PdAddr cfg)) (inr importer);
           Ev close (inr ce); Ev (ce_Import ce size) None] /\
     snd (unsafeCloseEngine importer engine
            (h ++ [Ev (importer_NewImporter (TikvImporter_Addr cfg) (TiDB_PdAddr cfg))
                      (inr importer)])) = [Ev close (inr ce)]).
Proof.
  intros Hrun. unfold importEngine in Hrun. inv_run.
  all: try match goal with
       | H : unsafeCloseEngine _ _ _ = (_, _) |- _ =>
           pose proof (unsafeCloseEngine_run _ _ _ _ _ H) as (Hcl & _ & Hclose & Hone)
       end.
  all: rewrite ?observe_app, ?existsb_app, ?Hcl, ?Hclose; simpl.
  all: (split; [reflexivity|split; [reflexivity|]]); intros Hnil; try discriminate.
  destruct (Hone _ eq_refl) as [close ->].
  match goal with x : goerror |- _ => destruct x; [discriminate|] end.
  do 4 eexists. split; [reflexivity|].
  match goal with H : unsafeCloseEngine _ _ _ = (_, _) |- _ => rewrite H end.
  reflexivity.
Qed.

Lemma cleanupEngine_run (cfg : Config) (engine : string) (h : Trace)
    (res : goerror) (tr : Trace) :
  cleanupEngine cfg engine h = (res, tr) ->
  observe as_Import tr = [] /\ existsb is_importer_Close tr = false /\
  (res = None ->
   exists importer (close : Call (error + ClosedEngine)) ce,
     tr = [Ev (importer_NewImporter (TikvImporter_Addr cfg) (TiDB_PdAddr cfg)) (inr importer);
           Ev close (inr ce); Ev (ce_Cleanup ce) None] /\
     snd (unsafeCloseEngine importer engine
            (h ++ [Ev (importer_NewImporter (TikvImporter_Addr cfg) (TiDB_PdAddr cfg))
                      (inr importer)])) = [Ev close (inr ce)]).
Proof.
  intros Hrun. unfold cleanupEngine in Hrun. inv_run.
  all: try match goal with
       | H : unsafeCloseEngine _ _ _ = (_, _) |- _ =>
           pose proof (unsafeCloseEngine_run _ _ _ _ _ H) as (_ & Him & Hclose & Hone)
       end.
  all: rewrite ?observe_app, ?existsb_app, ?Him, ?Hclose; simpl.
  all: (split; [reflexivity|split; [reflexivity|]]); intros Hnil; try discriminate.
  destruct (Hone _ eq_refl) as [close ->].
  match goal with x : goerror |- _ => destruct x; [discriminate|] end.
  do 3 eexists. split; [reflexivity|].
  match goal with H : unsafeCloseEngine _ _ _ = (_, _) |- _ => rewrite H end.
  reflexivity.
Qed.

(** X3 [importEngine], [cleanupEngine]: importing an engine never cleans it
    up and cleaning one up never imports it, and neither command closes the
    importer it connected to.  A command that returns nil has made exactly
    three calls: it connected the importer, closed the engine on that
    importer, and imported (or cleaned up) the very engine the close
    returned. *)
Theorem importEngine_cleanupEngine_steps (cfg : Config) (engine : string) (h : Trace) :
  let import := importEngine cfg engine h in
  let cleanup := cleanupEngine cfg engine h in
  observe as_Cleanup (snd import) = [] /\
  observe as_Import (snd cleanup) = [] /\
  existsb is_importer_Close (snd import ++ snd cleanup) = false /\
  (fst import = None ->
   exists importer (close : Call (error + ClosedEngine)) ce size,
     snd import =
     [Ev (importer_NewImporter (TikvImporter_Addr cfg) (TiDB_PdAddr cfg)) (inr importer);
      Ev close (inr ce); Ev (ce_Import ce size) None] /\
     snd (unsafeCloseEngine importer engine
            (h ++ [Ev (importer_NewImporter (TikvImporter_Addr cfg) (TiDB_PdAddr cfg))
                      (inr importer)])) = [Ev close (inr ce)]) /\
  (fst cleanup = None ->
   exists importer (close : Call (error + ClosedEngine)) ce,
     snd cleanup =
     [Ev (importer_NewImporter (TikvImporter_Addr cfg) (TiDB_PdAddr cfg)) (inr importer);
      Ev close (inr ce); Ev (ce_Cleanup ce) None] /\
     snd (unsafeCloseEngine importer engine
            (h ++ [Ev (importer_NewImporter (TikvImporter_Addr cfg) (TiDB_PdAddr cfg))
                      (inr importer)])) = [Ev close (inr ce)]).
Proof.
  cbv zeta.
  destruct (importEngine_run cfg engine h _ _ (surjective_pairing _)) as (Hi1 & Hi2 & Hi3).
  destruct (cleanupEngine_run cfg engine h _ _ (surjective_pairing _)) as (Hc1 & Hc2 & Hc3).
  rewrite existsb_app, Hi2, Hc2. auto.
Qed.

Lemma bind_call {R B : Type} (c : Call R) (k : R -> M B) (h : Trace) :
  bind (call c) k h =
  (fst (k (answer R h c) (h ++ [Ev c (answer R h c)])),
   Ev c (answer R h c) :: snd (k (answer R h c) (h ++ [Ev c (answer R h c)]))).
Proof. rewrite bind_run. reflexivity. Qed.

(** X16 [importEngine], [cleanupEngine]: the engine named on the command
    line is only read after the importer has been connected.  With an engine
    [table:suffix] whose suffix [strconv.Atoi] rejects, the one call made is
    [NewImporter]: if it fails its error is returned through [errors.Trace],
    and if it succeeds the error of [strconv.Atoi] is returned as one
    [errors.Trace] makes it (the second [errors.Trace] on the way out finds
    the stack trace of the first and adds nothing), with no engine closed,
    imported or cleaned up. *)
Theorem engine_commands_reject_malformed_ID (cfg : Config) (tableName suffix : string)
    (h : Trace) (err : error) :
  has_byte ":" suffix = false ->
  strconv_Atoi suffix = inl err ->
  let connect := importer_NewImporter (TikvImporter_Addr cfg) (TiDB_PdAddr cfg) in
  let run := (match answer _ h connect with
              | inl e => errors_Trace (Some e)
              | inr _ => errors_Trace (Some err)
              end, [Ev connect (answer _ h connect)]) in
  importEngine cfg (tableName ++ ":" ++ suffix) h = run /\
  cleanupEngine cfg (tableName ++ ":" ++ suffix) h = run.
Proof.
  intros Habs Hatoi. cbv zeta. unfold importEngine, cleanupEngine.
  rewrite !bind_call.
  destruct (answer _ h (importer_NewImporter (TikvImporter_Addr cfg) (TiDB_PdAddr cfg)))
    as [e|importer]; [split; reflexivity|].
  rewrite !bind_run.
  rewrite (unsafeCloseEngine_colon importer tableName suffix _ Habs), Hatoi.
  simpl. rewrite AddStack_idem. split; reflexivity.
Qed.

(** *** Failing calls and deferred closes *)

(** Settles a fact about a run that has been taken apart, by cases on the
    answers the code does not look at. *)
Ltac settle_run :=
  simpl in *; try discriminate;
  repeat match goal with
         | x : goerror |- _ => destruct x; simpl in *; try discriminate
         end;
  repeat match goal with
         | H : Some _ = Some _ |- _ => injection H as H
         | H : (_, _) = (_, _) |- _ => injection H as ? ?
         end;
  subst; simpl; rewrite ?Cause_AddStack;
  first [reflexivity | congruence].

(** X4 [cleanupMetas], [checkpointRemove], [checkpointErrorIgnore],
    [checkpointDump], [getLocalStoringTables]: each of these commands stops
    at the first call that fails.  After a failed call the run holds nothing
    but the deferred closes, and the cause of the returned error is the
    error of that call; the command returns nil exactly when no call
    failed. *)
Theorem commands_stop_at_first_failure (cfg : Config) (tableName dumpFolder : string)
    (h : Trace) :
  fails_fast (cleanupMetas cfg tableName h) /\
  fails_fast (checkpointRemove cfg tableName h) /\
  fails_fast (checkpointErrorIgnore cfg tableName h) /\
  fails_fast (checkpointDump cfg dumpFolder h) /\
  fails_fast (getLocalStoringTables cfg h).
Proof.
  unfold fails_fast. repeat apply conj.
  - destruct (cleanupMetas cfg tableName h) as [res tr] eqn:Hrun.
    unfold cleanupMetas in Hrun. inv_run; settle_run.
  - destruct (cleanupMetas cfg tableName h) as [res tr] eqn:Hrun.
    unfold cleanupMetas in Hrun. inv_run; settle_run.
  - destruct (checkpointRemove cfg tableName h) as [res tr] eqn:Hrun.
    unfold checkpointRemove, cleanupMetas in Hrun. inv_run; settle_run.
  - destruct (checkpointRemove cfg tableName h) as [res tr] eqn:Hrun.
    unfold checkpointRemove, cleanupMetas in Hrun. inv_run; settle_run.
  - destruct (checkpointErrorIgnore cfg tableName h) as [res tr] eqn:Hrun.
    unfold checkpointErrorIgnore in Hrun. inv_run; settle_run.
  - destruct (checkpointErrorIgnore cfg tableName h) as [res tr] eqn:Hrun.
    unfold checkpointErrorIgnore in Hrun. inv_run; settle_run.
  - destruct (checkpointDump cfg dumpFolder h) as [res tr] eqn:Hrun.
    unfold checkpointDump, os_Create in Hrun. inv_run; settle_run.
  - destruct (checkpointDump cfg dumpFolder h) as [res tr] eqn:Hrun.
    unfold checkpointDump, os_Create in Hrun. inv_run; settle_run.
  - destruct (getLocalStoringTables cfg h) as [res tr] eqn:Hrun.
    unfold getLocalStoringTables, getLocalStoringTables_body in Hrun. inv_run; settle_run.
  - destruct (getLocalStoringTables cfg h) as [res tr] eqn:Hrun.
    unfold getLocalStoringTables, getLocalStoringTables_body in Hrun. inv_run; settle_run.
Qed.

(** X5 [checkpointRemove], [checkpointErrorIgnore], [checkpointDump],
    [getLocalStoringTables]: whatever the calls answer, the run closes every
    checkpoints database and every file it has opened, each exactly once,
    the last opened first. *)
Theorem commands_close_what_they_open (cfg : Config) (tableName dumpFolder : string)
    (h : Trace) :
  releases_in_reverse (snd (checkpointRemove cfg tableName h)) /\
  releases_in_reverse (snd (checkpointErrorIgnore cfg tableName h)) /\
  releases_in_reverse (snd (checkpointDump cfg dumpFolder h)) /\
  releases_in_reverse (snd (getLocalStoringTables cfg h)).
Proof.
  unfold releases_in_reverse. repeat apply conj.
  - destruct (checkpointRemove cfg tableName h) as [res tr] eqn:Hrun.
    unfold checkpointRemove, cleanupMetas in Hrun. inv_run; settle_run.
  - destruct (checkpointErrorIgnore cfg tableName h) as [res tr] eqn:Hrun.
    unfold checkpointErrorIgnore in Hrun. inv_run; settle_run.
  - destruct (checkpointDump cfg dumpFolder h) as [res tr] eqn:Hrun.
    unfold checkpointDump, os_Create in Hrun. inv_run; settle_run.
  - destruct (getLocalStoringTables cfg h) as [res tr] eqn:Hrun.
    unfold getLocalStoringTables, getLocalStoringTables_body in Hrun. inv_run; settle_run.
Qed.

(** *** What the commands ask for *)

(** X6 [cleanupMetas]: the cause of the result is the error of the failing
    call, and the result is nil if none failed.  Every [TableExists] query is put to the database
    that [DBFromConfig] returned, first for the table-meta table and then
    for the task-meta table of the configured schema.
    [RemoveTableMetaByTableName] is called exactly when the first query
    answered true, on the unique name of the table-meta table and with the
    given table name, the name [all] being replaced by the empty string.
    [MaybeCleanupAllMetas] is called exactly when both queries were answered
    and the second answered true, with the answer of the first query as its
    flag. *)
Theorem cleanupMetas_steps (cfg : Config) (tableName : string) (h : Trace)
    (res : goerror) (tr : Trace) :
  cleanupMetas cfg tableName h = (res, tr) ->
  let schema := App_MetaSchemaName cfg in
  let metaTable := common_UniqueTable schema restore_TableMetaTableName in
  let target := if String.eqb tableName "all" then "" else tableName in
  let queries := observe as_TableExists tr in
  option_map Cause res = option_map Cause (last_error tr) /\
  Forall (fun q => observe as_DBFromConfig tr = [inr (fst (fst (fst q)))]) queries /\
  map (fun q => (snd (fst (fst q)), snd (fst q))) queries =
  firstn (List.length queries)
         [(schema, restore_TableMetaTableName); (schema, restore_TaskMetaTableName)] /\
  observe as_RemoveTableMeta tr =
  match queries with
  | (db, _, _, inr true) :: _ => [(db, metaTable, target)]
  | _ => []
  end /\
  observe as_MaybeCleanupAllMetas tr =
  match queries with
  | [(db, _, _, inr tableMetaExist); (_, _, _, inr true)] => [(db, schema, tableMetaExist)]
  | _ => []
  end.
Proof.
  intros Hrun. unfold cleanupMetas in Hrun. inv_run; simpl; try discriminate.
  all: repeat match goal with x : goerror |- _ => destruct x end.
  all: simpl; rewrite ?Cause_AddStack.
  all: repeat apply conj; try reflexivity; repeat constructor.
Qed.

(** X7 [checkpointDump]: the dumps are made in the order tables, engines,
    chunks, and each is made only if the one before succeeded.  No dump is
    made unless the three files were created, and the dumps go to the first,
    the second and the third file created, in that order.  The command
    returns nil exactly when all three dumps were made and succeeded. *)
Theorem checkpointDump_dumps_in_order (cfg : Config) (dumpFolder : string) (h : Trace)
    (res : goerror) (tr : Trace) :
  checkpointDump cfg dumpFolder h = (res, tr) ->
  let dumps := observe as_Dump tr in
  map (fun d => fst (fst d)) dumps =
  firstn (List.length dumps) [DumpTables; DumpEngines; DumpChunks] /\
  Forall (fun d => snd d = None) (removelast dumps) /\
  (dumps <> [] ->
   map (fun d => snd (fst d)) dumps = firstn (List.length dumps) (observe as_File tr) /\
   List.length (observe as_File tr) = 3%nat) /\
  (res = None <-> map snd dumps = [None; None; None]).
Proof.
  intros Hrun. unfold checkpointDump, os_Create in Hrun. inv_run; simpl.
  all: repeat match goal with x : goerror |- _ => destruct x end.
  all: repeat apply conj; try reflexivity; repeat constructor.
  all: try solve [intros; congruence].
Qed.

(** X8 [getLocalStoringTables]: the command writes one line to stderr, as
    its last step, exactly when it returns nil; when it returns an error it
    writes nothing.  When the checkpoints database names tables that keep
    local files, that line lists them after the words
    [These tables are missing intermediate files:] and the result is nil. *)
Theorem getLocalStoringTables_report (cfg : Config) (h : Trace)
    (res : goerror) (tr : Trace) :
  getLocalStoringTables cfg h = (res, tr) ->
  match res with
  | Some _ => observe as_Fprintln tr = []
  | None => exists line, observe as_Fprintln tr = [line] /\
                         last tr nothing_to_show = Ev (fmt_Fprintln_Stderr line) tt
  end /\
  (forall tableWithEngine,
     observe as_GetLocalStoringTables tr = [inr tableWithEngine] ->
     tableWithEngine <> [] ->
     res = None /\
     observe as_Fprintln tr =
     [[PStr "These tables are missing intermediate files:";
       PStrs (map fst tableWithEngine)]]).
Proof.
  intros Hrun. unfold getLocalStoringTables, getLocalStoringTables_body in Hrun. inv_run.
  all: simpl in *; try discriminate.
  all: repeat match goal with
       | H : (_, _) = (_, _) |- _ => apply pair_equal_spec in H; destruct H; subst
       end.
  all: simpl in *; try discriminate.
  all: split; [solve [reflexivity | eexists; split; reflexivity]|].
  all: intros m Hm Hne; try discriminate.
  all: injection Hm as <-.
  all: try match goal with
           | Hne : ?m <> [] |- _ => destruct m; [congruence|]; simpl in *; discriminate
           end.
  all: split; reflexivity.
Qed.

(** *** More on [checkpointErrorDestroy] *)

(** X9 [checkpointErrorDestroy]: when the command returns it has closed the
    checkpoints database, the TiDB manager and the importer it opened, each
    exactly once and the last opened first, whatever went wrong in between.
    While it is still in an engine loop it has closed nothing. *)
Theorem checkpointErrorDestroy_closes_what_it_opened (fuel : nat) (cfg : Config)
    (tableName : string) (h : Trace) (res : outcome goerror) (tr : Trace) :
  checkpointErrorDestroy fuel cfg tableName h = (res, tr) ->
  match res with
  | Returned _ => releases_in_reverse tr
  | OutOfFuel => observe released tr = []
  end.
Proof.
  intros Hrun. unfold releases_in_reverse. ced_cases Hrun.
  all: nil_observe acquired; nil_observe released.
  all: simpl; rewrite ?app_nil_r; reflexivity.
Qed.

(** X10 [checkpointErrorDestroy]: nothing is destroyed before the
    checkpoints are.  Either [DestroyErrorCheckpoint] was called once, for
    the given table name, and returned its tables; or the command returned
    an error whose cause is the error of the call that failed (opening the
    checkpoints database, connecting to TiDB, or [DestroyErrorCheckpoint]
    itself) and
    has dropped no table, made no call to the importer, removed no engine
    file, not called [cleanupMetas] and written nothing to stderr. *)
Theorem checkpointErrorDestroy_needs_destroyed_checkpoints (fuel : nat) (cfg : Config)
    (tableName : string) (h : Trace) (res : outcome goerror) (tr : Trace) :
  checkpointErrorDestroy fuel cfg tableName h = (res, tr) ->
  (exists tables, observe as_DestroyErrorCheckpoint tr = [(tableName, inr tables)]) \/
  (exists err r,
     last_error tr = Some err /\ res = Returned (Some r) /\ Cause r = Cause err /\
     observe as_DropTable tr = [] /\ existsb is_importer_event tr = false /\
     observe as_file_Cleanup tr = [] /\ cleanupMetas_attempted tr = false /\
     observe as_Fprintln tr = []).
Proof.
  intros Hrun. ced_cases Hrun.
  all: try solve [right; do 2 eexists; repeat split;
                  first [reflexivity | apply Cause_AddStack]].
  all: left; eexists; nil_observe as_DestroyErrorCheckpoint.
  all: simpl; rewrite ?app_nil_r; reflexivity.
Qed.

(** X11 [checkpointErrorDestroy]: when the importer cannot be connected the
    command returns an error whose cause is the error of [NewImporter], also
    when drops have failed before.  By then every table has been dropped; no engine is
    closed or cleaned up, no engine file is removed, [cleanupMetas] is not
    called, and the TiDB manager and the checkpoints database are closed. *)
Theorem checkpointErrorDestroy_importer_unreachable (fuel : nat) (cfg : Config)
    (tableName : string) (h : Trace) (res : outcome goerror) (tr : Trace) (err : error) :
  checkpointErrorDestroy fuel cfg tableName h = (res, tr) ->
  observe as_NewImporter tr = [inl err] ->
  (exists r, res = Returned (Some r) /\ Cause r = Cause err) /\
  (exists tables,
     observe as_DestroyErrorCheckpoint tr = [(tableName, inr tables)] /\
     observe as_DropTable tr = map TableName tables) /\
  observe as_UnsafeCloseEngine tr = [] /\ observe as_Cleanup tr = [] /\
  observe as_file_Cleanup tr = [] /\ cleanupMetas_attempted tr = false /\
  releases_in_reverse tr.
Proof.
  intros Hrun Himp. unfold releases_in_reverse, cleanupMetas_attempted.
  ced_cases Hrun; try discriminate.
  all: rewrite ?existsb_app; simpl.
  all: nil_observe as_NewImporter; simpl in Himp; rewrite ?app_nil_r in Himp;
    try discriminate.
  all: injection Himp as ->.
  all: nil_observe as_DestroyErrorCheckpoint; nil_observe as_UnsafeCloseEngine;
    nil_observe as_Cleanup; nil_observe as_file_Cleanup; nil_observe acquired;
    nil_observe released; nil_existsb is_DBFromConfig.
  all: simpl; rewrite ?app_nil_r.
  all: split; [eexists; split; [reflexivity|apply Cause_AddStack]|].
  all: split; [eexists; split; [reflexivity|assumption]|].
  all: repeat split; reflexivity.
Qed.

(** The loop over the tables does not end once a table's engine loop does
    not. *)
Lemma forTables_never_ends {S : Type} (P : DestroyedTableCheckpoint -> Prop)
    (body : DestroyedTableCheckpoint -> S -> M (outcome S)) :
  (forall table s h, P table -> fst (body table s h) = OutOfFuel) ->
  forall tables, Exists P tables ->
  forall s h, fst (forTables tables s body h) = OutOfFuel.
Proof.
  intros Hbody tables Hex. induction Hex as [table rest Htable|table rest _ IH];
    intros s h; simpl; unfold andThen; rewrite bind_run.
  - rewrite (Hbody table s h Htable). reflexivity.
  - destruct (fst (body table s h)); simpl; [apply IH|reflexivity].
Qed.

Lemma engine_loops_never_end_at_MaxInt32 (fuel : nat)
    (body : DestroyedTableCheckpoint -> Z -> goerror -> M goerror)
    (tables : list DestroyedTableCheckpoint) (s : goerror) (h : Trace) :
  Exists ends_at_MaxInt32 tables ->
  fst (forTables tables s
         (fun table lastErr =>
            forEngineIDs fuel (MinEngineID table) (MaxEngineID table) lastErr (body table))
         h) = OutOfFuel.
Proof.
  intros Hex. apply (forTables_never_ends ends_at_MaxInt32); [|exact Hex].
  intros table s0 h0 [Hmin Hmax]. rewrite Hmax.
  apply forEngineIDs_never_ends_at_MaxInt32. exact Hmin.
Qed.

Lemma destroyLocalAndMetas_never_ends_at_MaxInt32 (fuel : nat) (cfg : Config)
    (tableName : string) (tables : list DestroyedTableCheckpoint) (s : goerror) (h : Trace) :
  TikvImporter_Backend cfg = "local" ->
  Exists ends_at_MaxInt32 tables ->
  fst (destroyLocalAndMetas fuel cfg tableName tables s h) = OutOfFuel.
Proof.
  intros Hlocal Hex. unfold destroyLocalAndMetas, andThen.
  rewrite Hlocal. simpl String.eqb. rewrite bind_run.
  rewrite (engine_loops_never_end_at_MaxInt32 fuel (cleanupLocalEngine cfg) tables s h Hex).
  reflexivity.
Qed.

(** X12 [checkpointErrorDestroy]: the engine counter is an [int32], so the
    loop [for engineID := MinEngineID; engineID <= MaxEngineID; engineID++]
    does not end for a table whose [MaxEngineID] is the largest [int32].
    When [DestroyErrorCheckpoint] returns such a table and the backend is
    local, or the importer is connected, the command does not return: it is
    still in an engine loop after any number of turns. *)
Theorem checkpointErrorDestroy_never_returns_at_MaxInt32 (fuel : nat) (cfg : Config)
    (tableName : string) (h : Trace) (res : outcome goerror) (tr : Trace)
    (tables : list DestroyedTableCheckpoint) :
  checkpointErrorDestroy fuel cfg tableName h = (res, tr) ->
  observe as_DestroyErrorCheckpoint tr = [(tableName, inr tables)] ->
  Exists ends_at_MaxInt32 tables ->
  TikvImporter_Backend cfg = "local" \/
  (exists importer, observe as_NewImporter tr = [inr importer]) ->
  res = OutOfFuel.
Proof.
  intros Hrun Hobs Hex Hbackend.
  assert (Htables : forall importer targetTables s0 h0 o t,
             forTables targetTables s0
               (fun table lastErr =>
                  forEngineIDs fuel (MinEngineID table) (MaxEngineID table) lastErr
                    (closeAndCleanupEngine importer table)) h0 = (o, t) ->
             targetTables = tables -> o = OutOfFuel).
  { intros importer targetTables s0 h0 o t Hloop ->.
    pose proof (engine_loops_never_end_at_MaxInt32 fuel (closeAndCleanupEngine importer)
                  tables s0 h0 Hex) as Hnever.
    rewrite Hloop in Hnever. exact Hnever. }
  assert (Hlocal : forall targetTables s0 h0 o t,
             destroyLocalAndMetas fuel cfg tableName targetTables s0 h0 = (o, t) ->
             TikvImporter_Backend cfg = "local" ->
             targetTables = tables -> o = OutOfFuel).
  { intros targetTables s0 h0 o t Hloop Hloc ->.
    pose proof (destroyLocalAndMetas_never_ends_at_MaxInt32 fuel cfg tableName
                  tables s0 h0 Hloc Hex) as Hnever.
    rewrite Hloop in Hnever. exact Hnever. }
  unfold checkpointErrorDestroy in Hrun. inv_run; try discriminate.
  all: repeat match goal with
       | H : forTables _ _ _ _ = (_, _) |- _ =>
           pose proof (Htables _ _ _ _ _ _ H) as ?Hengines;
           apply closeEngines_run in H; destruct H as (?Hphase & _)
       | H : destroyLocalAndMetas _ _ _ _ _ _ = (_, _) |- _ =>
           pose proof (Hlocal _ _ _ _ _ H) as ?Hfiles;
           apply destroyLocalAndMetas_run in H; destruct H as (?Hphase & _)
       | H : forRange _ _ (dropTable _) _ = (_, _) |- _ =>
           apply dropTables_run in H; destruct H as (_ & ?Hphase & _)
       end.
  all: rewrite ?observe_app in *; simpl in *.
  all: nil_observe as_DestroyErrorCheckpoint; nil_observe as_NewImporter.
  all: simpl in *; rewrite ?app_nil_r in *.
  all: try match type of Hobs with
           | [(_, inr ?l)] = _ => assert (Heq : l = tables) by congruence
           end.
  all: try match goal with
       | H : String.eqb _ _ = true |- _ => apply String.eqb_eq in H
       end.
  all: destruct Hbackend as [Hloc|[importer Himp]]; try discriminate; try congruence.
  all: try (rewrite Hloc in *; discriminate).
  all: repeat match goal with
       | H : _ = _ -> _ |- _ => specialize (H Heq)
       | H : _ = _ -> _ |- _ => specialize (H Hloc)
       end; try congruence.
Qed.

Lemma ascending_lower (lo lo' hi : nat) (l : list nat) :
  (lo <= lo')%nat -> ascending lo' hi l -> ascending lo hi l.
Proof.
  destruct l; simpl; [lia|]. intros Hlo [Ha Hrest]. split; [lia|exact Hrest].
Qed.

Lemma ascending_piece (k lo hi : nat) (l rest : list nat) :
  Forall (eq k) l -> (lo <= k)%nat -> ascending k hi rest -> ascending lo hi (l ++ rest).
Proof.
  intros Hl. revert lo. induction Hl as [|a l <- _ IH]; intros lo Hlo Hrest; simpl.
  - apply (ascending_lower lo k); assumption.
  - split; [exact Hlo|]. apply IH; [lia|exact Hrest].
Qed.

(** The stage of an event of a phase, by cases on its call. *)
Ltac stage_cases :=
  let c := fresh "c" in
  intros [? c ?]; destruct c; simpl; intros; try discriminate; auto.

Lemma stage_of_phase (P : Event -> bool) (k : nat) (t : Trace) :
  (forall ev, P ev = true -> stage ev = None \/ stage ev = Some k) ->
  Forall (fun ev => P ev = true) t ->
  Forall (eq k) (observe stage t).
Proof.
  intros HP. induction 1 as [|ev t Hev _ IH]; simpl; [constructor|].
  destruct (HP ev Hev) as [-> | ->]; simpl; auto.
Qed.

(** From the test of the local backend on, the engine files come before
    the calls of [cleanupMetas]. *)
Lemma destroyLocalAndMetas_stages (fuel : nat) (cfg : Config) (tableName : string)
    (tables : list DestroyedTableCheckpoint) (s : goerror) (h : Trace)
    (o : outcome goerror) (t : Trace) :
  destroyLocalAndMetas fuel cfg tableName tables s h = (o, t) ->
  exists files metas,
    observe stage t = files ++ metas /\
    Forall (eq 6%nat) files /\ Forall (eq 7%nat) metas.
Proof.
  intros Hrun. unfold destroyLocalAndMetas, andThen in Hrun.
  apply bind_inv in Hrun. destruct Hrun as (o1 & t1 & t2 & H1 & H2 & ->).
  exists (observe stage t1), (observe stage t2).
  split; [apply observe_app|]. split.
  - destruct (String.eqb (TikvImporter_Backend cfg) "local").
    + apply cleanupLocalEngines_run in H1. destruct H1 as (Hphase & _).
      apply (stage_of_phase is_local_phase); [|exact Hphase].
      stage_cases.
    + apply ret_inv in H1. destruct H1 as [_ ->]. constructor.
  - destruct o1 as [lastErr|]; [|apply ret_inv in H2; destruct H2 as [_ ->]; constructor].
    apply bind_inv in H2. destruct H2 as (e & t3 & t4 & H3 & H4 & ->).
    apply ret_inv in H4. destruct H4 as [_ ->]. rewrite app_nil_r.
    destruct lastErr as [err|]; [apply ret_inv in H3; destruct H3 as [_ ->]; constructor|].
    destruct (cleanupMetas_run cfg tableName (h ++ t1)) as (_ & Hmetas & _).
    rewrite H3 in Hmetas. simpl in Hmetas.
    apply (stage_of_phase is_metas_event); [|exact Hmetas].
    stage_cases.
Qed.

(** X13 [checkpointErrorDestroy]: the calls of a run come in stages that
    never go back: opening the checkpoints database, connecting to TiDB,
    destroying the error checkpoints, dropping the tables, connecting the
    importer, closing and cleaning up engines on the importer, removing
    local engine files, the calls of [cleanupMetas], closing the importer,
    closing the TiDB manager, closing the checkpoints database.  So no table
    is dropped before the checkpoints are destroyed, no engine is touched
    before the last table is dropped, and the metadata is cleaned last. *)
Theorem checkpointErrorDestroy_stages_in_order (fuel : nat) (cfg : Config)
    (tableName : string) (h : Trace) (res : outcome goerror) (tr : Trace) :
  checkpointErrorDestroy fuel cfg tableName h = (res, tr) ->
  ascending 0 10 (observe stage tr).
Proof.
  intros Hrun. unfold checkpointErrorDestroy in Hrun. inv_run.
  all: repeat match goal with
       | H : forRange _ _ (dropTable _) _ = (_, _) |- _ =>
           apply dropTables_run in H; destruct H as (_ & H & _);
           apply (stage_of_phase is_drop_phase 3%nat) in H;
           [|stage_cases]
       | H : forTables _ _ _ _ = (_, _) |- _ =>
           apply closeEngines_run in H; destruct H as (H & _);
           apply (stage_of_phase is_engine_phase 5%nat) in H;
           [|stage_cases]
       | H : destroyLocalAndMetas _ _ _ _ _ _ = (_, _) |- _ =>
           apply destroyLocalAndMetas_stages in H;
           let Hfiles := fresh "Hfiles" in
           let Hmetas := fresh "Hmetas" in
           destruct H as (? & ? & H & Hfiles & Hmetas)
       end.
  all: rewrite ?observe_app; simpl.
  all: repeat match goal with
       | H : observe stage _ = _ ++ _ |- _ => rewrite H; clear H
       end.
  all: repeat (first [rewrite <- app_assoc | progress simpl]).
  all: repeat first [ split; [lia|]
                    | eapply ascending_piece; [eassumption|lia|]
                    | simpl; lia ].
Qed.

(** X14 [checkpointDump]: the error of a file that cannot be created is
    returned with the words [failed to create] and a file name.  For the
    first and the third file that is the name that was passed to
    [os.Create]; for the second file the message names the engines file
    although the name passed to [os.Create] was that of the tables file. *)
Theorem checkpointDump_create_failure (cfg : Config) (dumpFolder : string) (h : Trace)
    (res : goerror) (tr : Trace) :
  checkpointDump cfg dumpFolder h = (res, tr) ->
  let tablesFileName := filepath_Join dumpFolder "tables.csv" in
  let enginesFileName := filepath_Join dumpFolder "engines.csv" in
  let chunksFileName := filepath_Join dumpFolder "chunks.csv" in
  match observe as_Created tr with
  | [(name, inl err)] =>
      name = tablesFileName /\
      res = Some (ErrAnnotatef err "failed to create %s" [tablesFileName])
  | [_; (name, inl err)] =>
      name = tablesFileName /\
      res = Some (ErrAnnotatef err "failed to create %s" [enginesFileName])
  | [_; _; (name, inl err)] =>
      name = chunksFileName /\
      res = Some (ErrAnnotatef err "failed to create %s" [chunksFileName])
  | created => Forall (fun c => err_of_sum (snd c) = None) created
  end.
Proof.
  intros Hrun. unfold checkpointDump, os_Create in Hrun. inv_run; simpl.
  all: first [split; reflexivity | repeat constructor].
Qed.

(** *** What [checkpointErrorDestroy] reports on stderr *)

Lemma forRange_closed {A S : Type} (Q : Trace -> Prop) (body : A -> S -> M S) :
  Q [] -> (forall a b, Q a -> Q b -> Q (a ++ b)) ->
  (forall x s h, Q (snd (body x s h))) ->
  forall l s h, Q (snd (forRange l s body h)).
Proof.
  intros Hnil Happ Hbody. induction l as [|x l IH]; intros s h; simpl; [exact Hnil|].
  rewrite bind_run. simpl. apply Happ; [apply Hbody|apply IH].
Qed.

Lemma forEngineIDs_closed {S : Type} (Q : Trace -> Prop) (body : Z -> S -> M S) :
  Q [] -> (forall a b, Q a -> Q b -> Q (a ++ b)) ->
  (forall x s h, Q (snd (body x s h))) ->
  forall fuel lo hi s h, Q (snd (forEngineIDs fuel lo hi s body h)).
Proof.
  intros Hnil Happ Hbody. induction fuel as [|fuel IH]; intros lo hi s h; simpl;
    [exact Hnil|].
  destruct (lo <=? hi); [|exact Hnil].
  rewrite bind_run. simpl. apply Happ; [apply Hbody|apply IH].
Qed.

Lemma forTables_closed {S : Type} (Q : Trace -> Prop)
    (body : DestroyedTableCheckpoint -> S -> M (outcome S)) :
  Q [] -> (forall a b, Q a -> Q b -> Q (a ++ b)) ->
  (forall x s h, Q (snd (body x s h))) ->
  forall l s h, Q (snd (forTables l s body h)).
Proof.
  intros Hnil Happ Hbody. induction l as [|x l IH]; intros s h; simpl; [exact Hnil|].
  unfold andThen. rewrite bind_run. simpl. apply Happ; [apply Hbody|].
  destruct (fst (body x s h)); [apply IH|exact Hnil].
Qed.

Lemma reports_failures_app (a b : Trace) :
  reports_failures a -> reports_failures b -> reports_failures (a ++ b).
Proof. unfold reports_failures. intros Ha Hb. rewrite !observe_app, Ha, Hb. reflexivity. Qed.

Lemma dropTable_reports (target : TiDBManager) (table : DestroyedTableCheckpoint)
    (s : goerror) (h : Trace) :
  reports_failures (snd (dropTable target table s h)).
Proof.
  destruct (dropTable target table s h) as [r t] eqn:Hrun.
  unfold dropTable in Hrun. inv_run; reflexivity.
Qed.

Lemma closeAndCleanupEngine_reports (importer : Backend) (table : DestroyedTableCheckpoint)
    (engineID : Z) (s : goerror) (h : Trace) :
  reports_failures (snd (closeAndCleanupEngine importer table engineID s h)).
Proof.
  destruct (closeAndCleanupEngine importer table engineID s h) as [r t] eqn:Hrun.
  unfold closeAndCleanupEngine in Hrun. inv_run; reflexivity.
Qed.

Lemma cleanupLocalEngine_reports (cfg : Config) (table : DestroyedTableCheckpoint)
    (engineID : Z) (s : goerror) (h : Trace) :
  reports_failures (snd (cleanupLocalEngine cfg table engineID s h)).
Proof.
  destruct (cleanupLocalEngine cfg table engineID s h) as [r t] eqn:Hrun.
  unfold cleanupLocalEngine in Hrun. inv_run; reflexivity.
Qed.

Lemma destroyLocalAndMetas_reports (fuel : nat) (cfg : Config) (tableName : string)
    (tables : list DestroyedTableCheckpoint) (s : goerror) (h : Trace) :
  reports_failures (snd (destroyLocalAndMetas fuel cfg tableName tables s h)).
Proof.
  destruct (destroyLocalAndMetas fuel cfg tableName tables s h) as [o t] eqn:Hrun.
  unfold destroyLocalAndMetas, andThen in Hrun.
  apply bind_inv in Hrun. destruct Hrun as (o1 & t1 & t2 & H1 & H2 & ->).
  simpl. apply reports_failures_app.
  - destruct (String.eqb (TikvImporter_Backend cfg) "local").
    + replace t1 with (snd (forTables tables s
                         (fun table lastErr =>
                            forEngineIDs fuel (MinEngineID table) (MaxEngineID table) lastErr
                              (cleanupLocalEngine cfg table)) h))
        by (rewrite H1; reflexivity).
      apply (forTables_closed reports_failures);
        [reflexivity|exact reports_failures_app|].
      intros table s0 h0.
      apply (forEngineIDs_closed reports_failures);
        [reflexivity|exact reports_failures_app|].
      intros. apply cleanupLocalEngine_reports.
    + apply ret_inv in H1. destruct H1 as [_ ->]. reflexivity.
  - destruct o1 as [lastErr|]; [|apply ret_inv in H2; destruct H2 as [_ ->]; reflexivity].
    apply bind_inv in H2. destruct H2 as (e & t3 & t4 & H3 & H4 & ->).
    apply ret_inv in H4. destruct H4 as [_ ->]. rewrite app_nil_r.
    destruct lastErr as [err|]; [apply ret_inv in H3; destruct H3 as [_ ->]; reflexivity|].
    destruct (cleanupMetas_run cfg tableName (h ++ t1)) as (_ & Hmetas & _).
    rewrite H3 in Hmetas. simpl in Hmetas. unfold reports_failures.
    rewrite (observe_nil as_error_line), (observe_nil reported_failure);
      [reflexivity| |]; (eapply Forall_impl; [|exact Hmetas]); event_cases.
Qed.

(** X15 [checkpointErrorDestroy]: the lines on stderr that report an error
    are, in the order of the calls, exactly one for every failed
    [DropTable], every failed [UnsafeCloseEngine] and every failed removal
    of an engine file, each with the words of its loop and the error of that
    call.  No other line of that form is written: a failed [Cleanup] of a
    closed engine leaves none, and neither does the failure of a step that
    ends the command. *)
Theorem checkpointErrorDestroy_reports_failures (fuel : nat) (cfg : Config)
    (tableName : string) (h : Trace) (res : outcome goerror) (tr : Trace) :
  checkpointErrorDestroy fuel cfg tableName h = (res, tr) ->
  observe as_error_line tr = observe reported_failure tr.
Proof.
  intros Hrun.
  - unfold checkpointErrorDestroy in Hrun. inv_run.
    all: repeat match goal with
         | H : forRange ?l ?s (dropTable ?t) ?h0 = (_, ?tr0) |- _ =>
             assert (reports_failures tr0)
               by (replace tr0 with (snd (forRange l s (dropTable t) h0))
                     by (rewrite H; reflexivity);
                   apply (forRange_closed reports_failures);
                   [reflexivity|exact reports_failures_app|];
                   intros; apply dropTable_reports);
             clear H
         | H : forTables ?l ?s ?body ?h0 = (_, ?tr0) |- _ =>
             assert (reports_failures tr0)
               by (replace tr0 with (snd (forTables l s body h0))
                     by (rewrite H; reflexivity);
                   apply (forTables_closed reports_failures);
                   [reflexivity|exact reports_failures_app|];
                   intros;
                   apply (forEngineIDs_closed reports_failures);
                   [reflexivity|exact reports_failures_app|];
                   intros; apply closeAndCleanupEngine_reports);
             clear H
         | H : destroyLocalAndMetas ?f ?c ?tn ?l ?s ?h0 = (_, ?tr0) |- _ =>
             assert (reports_failures tr0)
               by (replace tr0 with (snd (destroyLocalAndMetas f c tn l s h0))
                     by (rewrite H; reflexivity);
                   apply destroyLocalAndMetas_reports);
             clear H
         end.
    all: unfold reports_failures in *.
    all: rewrite ?observe_app; simpl; rewrite ?observe_app.
    all: repeat match goal with
         | H : observe as_error_line _ = _ |- _ => rewrite H; clear H
         end.
    all: reflexivity.
Qed.

End Theorems.

(** ** Runs in the example worlds *)


(** C1: the dump of a store into the folder "dump", every call succeeding.
    [os.Create] is called on dump/tables.csv twice and never on
    dump/engines.csv; the sink of [DumpEngines] is a file opened as
    dump/tables.csv, the very name of the sink of [DumpTables]. *)
Theorem checkpointDump_engines_written_to_tables_file :
  let run := @checkpointDump fine_world (demo_cfg "local") "dump" [] in
  fst run = None /\
  observe as_Create (snd run) = ["dump/tables.csv"; "dump/tables.csv"; "dump/chunks.csv"] /\
  map file_Name (observe as_DumpTables (snd run)) = ["dump/tables.csv"] /\
  map file_Name (observe as_DumpEngines (snd run)) = ["dump/tables.csv"] /\
  map file_Name (observe as_DumpChunks (snd run)) = ["dump/chunks.csv"].
Proof. vm_compute. repeat split; reflexivity. Qed.

(** C2, as stated, fails: a run in which the only call that fails is the
    drop of table t1 (no fatal error, the function returns) and yet
    [cleanupMetas] is not attempted. *)
Lemma drop_failure_suppresses_cleanupMetas :
  let run := @checkpointErrorDestroy drop_fails_world 1 (demo_cfg "tidb") "all" [] in
  fst run = Returned (Some (ErrTrace (ErrNew "DROP TABLE failed"))) /\
  observe as_DropTable (snd run) = ["`db`.`t1`"; "`db`.`t2`"] /\
  observe event_error (snd run) = [ErrNew "DROP TABLE failed"] /\
  cleanupMetas_attempted (snd run) = false.
Proof. vm_compute. repeat split; reflexivity. Qed.

(** The same with an engine: the only failures are the close of engine 0
    and the cleanup of engine 1 on the importer. *)
Lemma engine_failure_suppresses_cleanupMetas :
  let run := @checkpointErrorDestroy engines_fail_world 5 (demo_cfg "importer") "all" [] in
  fst run = Returned (Some (ErrTrace (ErrNew "engine not found"))) /\
  observe event_error (snd run) =
    [ErrNew "engine not found"; ErrNew "cleanup failed"; ErrNew "engine not found"] /\
  cleanupMetas_attempted (snd run) = false.
Proof. vm_compute. repeat split; reflexivity. Qed.

(** With no failure at all, [cleanupMetas] is attempted. *)
Lemma checkpointErrorDestroy_cleanupMetas_guard_witness :
  let run := @checkpointErrorDestroy fine_world 5 (demo_cfg "importer") "all" [] in
  cleanupMetas_attempted (snd run) = true /\
  (exists r, fst run = Returned r) /\
  last_error (before_cleanupMetas (snd run)) = None.
Proof.
  cbv zeta.
  assert (Hatt : cleanupMetas_attempted
            (snd (@checkpointErrorDestroy fine_world 5 (demo_cfg "importer") "all" [])) = true)
    by (vm_compute; reflexivity).
  split; [exact Hatt|].
  exact (proj1 (@checkpointErrorDestroy_cleanupMetas_guard fine_world 5
                  (demo_cfg "importer") "all" []) Hatt).
Defined.




Lemma switchMode_dispatch_witness :
  ("compact" <> config_ImportMode /\
   "compact" <> config_NormalMode /\
   @switchMode fine_world (demo_cfg "local") "compact" [] =
   (errors_Errorf "invalid mode %s, must use %s or %s"
      ["compact"; config_ImportMode; config_NormalMode], [])) /\
  observe as_SwitchMode (snd (@switchMode fine_world (demo_cfg "local") "import" [])) =
    [("10.0.0.1:20160", SwitchMode_Import); ("10.0.0.3:20160", SwitchMode_Import)] /\
  observe as_SwitchMode (snd (@switchMode fine_world (demo_cfg "local") "normal" [])) =
    [("10.0.0.1:20160", SwitchMode_Normal); ("10.0.0.3:20160", SwitchMode_Normal)].
Proof.
  assert (Hi : "compact" <> config_ImportMode) by discriminate.
  assert (Hn : "compact" <> config_NormalMode) by discriminate.
  split; [split; [exact Hi|split; [exact Hn|]]|split].
  - exact (proj1 (@switchMode_dispatch fine_world (demo_cfg "local") "compact" []) Hi Hn).
  - exact (proj2 (@switchMode_dispatch fine_world (demo_cfg "local") "import" [])
                 SwitchMode_Import (or_introl (conj eq_refl eq_refl))).
  - exact (proj2 (@switchMode_dispatch fine_world (demo_cfg "local") "normal" [])
                 SwitchMode_Normal (or_intror (conj eq_refl eq_refl))).
Defined.


Lemma getLocalStoringTables_nothing_to_show_witness :
  (TikvImporter_Backend (demo_cfg "importer") <> config_BackendLocal /\
   @getLocalStoringTables fine_world (demo_cfg "importer") [] = (None, [nothing_to_show])) /\
  (@answer no_store_world _ [] checkpoints_IsCheckpointsDBExists = inr false /\
   @getLocalStoringTables no_store_world (demo_cfg "local") [] =
   (None, [Ev checkpoints_IsCheckpointsDBExists (inr false); nothing_to_show])) /\
  (@answer nothing_local_world _ [] checkpoints_IsCheckpointsDBExists = inr true /\
   @answers nothing_local_world _ checkpoints_OpenCheckpointsDB (inr (CheckpointsDBRef 0)) /\
   @answers nothing_local_world _ (cpdb_GetLocalStoringTables (CheckpointsDBRef 0))
      (inr []) /\
   @getLocalStoringTables nothing_local_world (demo_cfg "local") [] =
   (None, [Ev checkpoints_IsCheckpointsDBExists (inr true);
           Ev checkpoints_OpenCheckpointsDB (inr (CheckpointsDBRef 0));
           Ev (cpdb_GetLocalStoringTables (CheckpointsDBRef 0)) (inr []);
           Ev (cpdb_Close (CheckpointsDBRef 0)) tt;
           nothing_to_show])).
Proof.
  assert (Hb : TikvImporter_Backend (demo_cfg "importer") <> config_BackendLocal)
    by discriminate.
  assert (Hopen : @answers nothing_local_world _ checkpoints_OpenCheckpointsDB
                    (inr (CheckpointsDBRef 0))) by (intros h; reflexivity).
  assert (Htables : @answers nothing_local_world _
                      (cpdb_GetLocalStoringTables (CheckpointsDBRef 0)) (inr []))
    by (intros h; reflexivity).
  split; [split; [exact Hb|]|split; [split; [reflexivity|]|]].
  - exact (proj1 (@getLocalStoringTables_nothing_to_show fine_world (demo_cfg "importer") [])
                 Hb).
  - exact (proj1 (proj2 (@getLocalStoringTables_nothing_to_show no_store_world
                           (demo_cfg "local") []))
                 eq_refl eq_refl).
  - split; [reflexivity|]. split; [exact Hopen|]. split; [exact Htables|].
    exact (proj2 (proj2 (@getLocalStoringTables_nothing_to_show nothing_local_world
                           (demo_cfg "local") []))
                 (CheckpointsDBRef 0) eq_refl eq_refl Hopen Htables).
Defined.

Lemma importEngine_region_split_size_witness :
  let run0 := @importEngine fine_world (demo_cfg "importer") "`db`.`t1`:123" [] in
  let run1 := @importEngine fine_world sized_cfg "`db`.`t1`:123" [] in
  (is_int64 (TikvImporter_RegionSplitSize (demo_cfg "importer")) /\
   (forall size, In size (observe as_Import (snd run0)) -> size = 100663296) /\
   (fst run0 = None -> observe as_Import (snd run0) = [100663296]) /\
   (to_int64 (@config_SplitRegionSize fine_world) <> 0 ->
    ~ In 0 (observe as_Import (snd run0)))) /\
  (is_int64 (TikvImporter_RegionSplitSize sized_cfg) /\
   (forall size, In size (observe as_Import (snd run1)) -> size = 50331648) /\
   (fst run1 = None -> observe as_Import (snd run1) = [50331648]) /\
   (to_int64 (@config_SplitRegionSize fine_world) <> 0 ->
    ~ In 0 (observe as_Import (snd run1)))).
Proof.
  cbv zeta.
  assert (H0 : is_int64 (TikvImporter_RegionSplitSize (demo_cfg "importer")))
    by (unfold is_int64; simpl; lia).
  assert (H1 : is_int64 (TikvImporter_RegionSplitSize sized_cfg))
    by (unfold is_int64; simpl; lia).
  split; (split; [assumption|]).
  - exact (@importEngine_region_split_size fine_world (demo_cfg "importer")
             "`db`.`t1`:123" [] _ _ H0 (surjective_pairing _)).
  - exact (@importEngine_region_split_size fine_world sized_cfg
             "`db`.`t1`:123" [] _ _ H1 (surjective_pairing _)).
Defined.

(** The engine named on the command line is split at its last colon. *)
Example unsafeCloseEngine_by_table :
  snd (@unsafeCloseEngine fine_world (BackendRef 0) "`db`.`t1`:123" []) =
  [Ev (importer_UnsafeCloseEngine (BackendRef 0) "`db`.`t1`" 123) (inr (ClosedEngineRef 124))].
Proof. vm_compute. reflexivity. Qed.

(** A table whose engine range ends at [MaxInt32]: the run is still in the
    engine loop after a thousand turns. *)
Example checkpointErrorDestroy_out_of_fuel_at_MaxInt32 :
  fst (@checkpointErrorDestroy wide_range_world 1000 (demo_cfg "local") "all" []) = OutOfFuel.
Proof. vm_compute. reflexivity. Qed.

Lemma fetchMode_reports_store_errors_inline_witness :
  let run := @fetchMode fetch_fails_world (demo_cfg "importer") [] in
  fst (@fetchMode_op fetch_fails_world
         {| Address := "10.0.0.1:20160"; State := StoreStateUp |} []) = None /\
  follows report_after_fetch (snd run) /\
  fst run = None /\
  observe as_FetchMode (snd run) = ["10.0.0.1:20160"; "10.0.0.3:20160"].
Proof.
  cbv zeta.
  destruct (@fetchMode_reports_store_errors_inline fetch_fails_world
              (demo_cfg "importer") []) as (Hop & Hreport & Hscan).
  split; [apply Hop|]. split; [exact Hreport|]. exact Hscan.
Defined.

(** ** Further runs in the example worlds *)

Lemma unsafeCloseEngine_splits_at_last_colon_witness :
  has_byte ":" "123" = false /\
  @unsafeCloseEngine fine_world (BackendRef 0) "`db:1`.`t:2`:123" [] =
  (inr (ClosedEngineRef 124),
   [Ev (importer_UnsafeCloseEngine (BackendRef 0) "`db:1`.`t:2`" 123)
       (inr (ClosedEngineRef 124))]).
Proof.
  split; [reflexivity|].
  exact (@unsafeCloseEngine_splits_at_last_colon fine_world (BackendRef 0)
           "`db:1`.`t:2`" "123" [] eq_refl).
Defined.

Lemma unsafeCloseEngine_uuid_without_colon_witness :
  has_byte ":" "0f1e2d3c-4b5a-6978-8796-a5b4c3d2e1f0" = false /\
  @unsafeCloseEngine uuid_world (BackendRef 0) "0f1e2d3c-4b5a-6978-8796-a5b4c3d2e1f0" [] =
  (inr (ClosedEngineRef 0),
   [Ev (importer_UnsafeCloseEngineWithUUID (BackendRef 0) "<tidb-lightning-ctl>" 77%N)
       (inr (ClosedEngineRef 0))]).
Proof.
  split; [reflexivity|].
  exact (proj1 (@unsafeCloseEngine_uuid_without_colon uuid_world (BackendRef 0)
                  "0f1e2d3c-4b5a-6978-8796-a5b4c3d2e1f0" []) eq_refl).
Defined.

Lemma cleanupMetas_steps_witness :
  let run := @cleanupMetas fine_world (demo_cfg "local") "all" [] in
  fst run = None /\
  observe as_RemoveTableMeta (snd run) =
    [(SQLDBRef 0, "`lightning_metadata`.`table_meta`", "")] /\
  observe as_MaybeCleanupAllMetas (snd run) = [(SQLDBRef 0, "lightning_metadata", true)].
Proof.
  cbv zeta.
  destruct (@cleanupMetas_steps fine_world (demo_cfg "local") "all" [] _ _
              (surjective_pairing _)) as (Hres & _ & _ & Hremove & Hall).
  split; [exact Hres|]. split; [exact Hremove|exact Hall].
Defined.

Lemma checkpointDump_dumps_in_order_witness :
  let run := @checkpointDump fine_world (demo_cfg "local") "dump" [] in
  map (fun d => fst (fst d)) (observe as_Dump (snd run)) =
    [DumpTables; DumpEngines; DumpChunks] /\
  map (fun d => snd (fst d)) (observe as_Dump (snd run)) = observe as_File (snd run) /\
  fst run = None.
Proof.
  cbv zeta.
  destruct (@checkpointDump_dumps_in_order fine_world (demo_cfg "local") "dump" [] _ _
              (surjective_pairing _)) as (Horder & _ & Hfiles & Hnil).
  split; [exact Horder|]. split.
  - refine (proj1 (Hfiles _)). vm_compute. discriminate.
  - apply Hnil. vm_compute. reflexivity.
Defined.

Lemma checkpointDump_create_failure_witness :
  let run := @checkpointDump engines_file_fails_world (demo_cfg "local") "dump" [] in
  observe as_Created (snd run) =
    [("dump/tables.csv", inr 3%nat);
     ("dump/tables.csv", inl (ErrNew "too many open files"))] /\
  fst run = Some (ErrAnnotatef (ErrNew "too many open files") "failed to create %s"
                    ["dump/engines.csv"]).
Proof.
  cbv zeta. split; [vm_compute; reflexivity|].
  exact (proj2 (@checkpointDump_create_failure engines_file_fails_world
                  (demo_cfg "local") "dump" [] _ _ (surjective_pairing _))).
Defined.

Lemma getLocalStoringTables_report_witness :
  let run := @getLocalStoringTables fine_world (demo_cfg "local") [] in
  observe as_GetLocalStoringTables (snd run) = [inr [("`db`.`t1`", [0; 1])]] /\
  fst run = None /\
  observe as_Fprintln (snd run) =
    [[PStr "These tables are missing intermediate files:"; PStrs ["`db`.`t1`"]]].
Proof.
  cbv zeta.
  assert (Hobs : observe as_GetLocalStoringTables
            (snd (@getLocalStoringTables fine_world (demo_cfg "local") []))
            = [inr [("`db`.`t1`", [0; 1])]]) by (vm_compute; reflexivity).
  split; [exact Hobs|].
  refine (proj2 (@getLocalStoringTables_report fine_world (demo_cfg "local") [] _ _
                   (surjective_pairing _)) _ Hobs _).
  discriminate.
Defined.

Lemma checkpointErrorDestroy_closes_what_it_opened_witness :
  let run := @checkpointErrorDestroy engines_fail_world 5 (demo_cfg "importer") "all" [] in
  observe acquired (snd run) =
    [HCheckpointsDB (CheckpointsDBRef 0); HTiDBManager (TiDBManagerRef 0);
     HImporter (BackendRef 0)] /\
  observe released (snd run) =
    [HImporter (BackendRef 0); HTiDBManager (TiDBManagerRef 0);
     HCheckpointsDB (CheckpointsDBRef 0)].
Proof.
  cbv zeta. split; [vm_compute; reflexivity|].
  exact (@checkpointErrorDestroy_closes_what_it_opened engines_fail_world 5
           (demo_cfg "importer") "all" [] _ _ (surjective_pairing _)).
Defined.

Lemma checkpointErrorDestroy_needs_destroyed_checkpoints_witness :
  let run := @checkpointErrorDestroy destroy_fails_world 5 (demo_cfg "importer") "all" [] in
  last_error (snd run) = Some (ErrNew "checkpoint store unreachable") /\
  (exists r, fst run = Returned (Some r) /\
             Cause r = ErrNew "checkpoint store unreachable") /\
  observe as_DropTable (snd run) = [] /\
  existsb is_importer_event (snd run) = false /\
  cleanupMetas_attempted (snd run) = false.
Proof.
  cbv zeta.
  destruct (@checkpointErrorDestroy_needs_destroyed_checkpoints destroy_fails_world 5
              (demo_cfg "importer") "all" [] _ _ (surjective_pairing _))
    as [[tables Htables]|(err & r & Herr & Hres & Hcause & Hdrop & Himp & _ & Hmetas & _)].
  - vm_compute in Htables. discriminate Htables.
  - assert (Hlast : last_error
              (snd (@checkpointErrorDestroy destroy_fails_world 5 (demo_cfg "importer")
                      "all" [])) = Some (ErrNew "checkpoint store unreachable"))
      by (vm_compute; reflexivity).
    rewrite Hlast in Herr. injection Herr as <-.
    split; [exact Hlast|]. split; [exists r; split; [exact Hres|exact Hcause]|]. auto.
Defined.

Lemma checkpointErrorDestroy_importer_unreachable_witness :
  let run := @checkpointErrorDestroy importer_down_world 5 (demo_cfg "importer") "all" [] in
  observe as_NewImporter (snd run) = [inl (ErrNew "connection refused")] /\
  observe event_error (snd run) =
    [ErrNew "DROP TABLE failed"; ErrNew "connection refused"] /\
  (exists r, fst run = Returned (Some r) /\ Cause r = ErrNew "connection refused") /\
  observe as_DropTable (snd run) = ["`db`.`t1`"; "`db`.`t2`"] /\
  observe as_UnsafeCloseEngine (snd run) = [] /\
  cleanupMetas_attempted (snd run) = false.
Proof.
  cbv zeta.
  assert (Himp : observe as_NewImporter
            (snd (@checkpointErrorDestroy importer_down_world 5 (demo_cfg "importer")
                    "all" [])) = [inl (ErrNew "connection refused")])
    by (vm_compute; reflexivity).
  destruct (@checkpointErrorDestroy_importer_unreachable importer_down_world 5
              (demo_cfg "importer") "all" [] _ _ _ (surjective_pairing _) Himp)
    as (Hres & _ & Hclose & _ & _ & Hmetas & _).
  split; [exact Himp|]. split; [vm_compute; reflexivity|].
  split; [exact Hres|]. split; [vm_compute; reflexivity|]. auto.
Defined.

Lemma checkpointErrorDestroy_never_returns_at_MaxInt32_witness :
  let run := @checkpointErrorDestroy wide_range_world 1000 (demo_cfg "local") "all" [] in
  Exists ends_at_MaxInt32
    [ {| TableName := "`db`.`t1`"; MinEngineID := MaxInt32; MaxEngineID := MaxInt32 |} ] /\
  fst run = OutOfFuel.
Proof.
  cbv zeta.
  assert (Hends : Exists ends_at_MaxInt32
            [ {| TableName := "`db`.`t1`"; MinEngineID := MaxInt32;
                 MaxEngineID := MaxInt32 |} ]).
  { constructor. split; [apply Z.le_refl|reflexivity]. }
  split; [exact Hends|].
  refine (@checkpointErrorDestroy_never_returns_at_MaxInt32 wide_range_world 1000
            (demo_cfg "local") "all" [] _ _ _ (surjective_pairing _) _ Hends
            (or_introl eq_refl)).
  vm_compute. reflexivity.
Defined.

Lemma checkpointErrorDestroy_stages_in_order_witness :
  let run := @checkpointErrorDestroy fine_world 5 (demo_cfg "importer") "all" [] in
  observe stage (snd run) =
    [0; 1; 2; 3; 3; 4; 5; 5; 5; 5; 5; 5; 5; 5; 7; 7; 7; 7; 7; 8; 9; 10]%nat /\
  ascending 0 10 (observe stage (snd run)).
Proof.
  cbv zeta. split; [vm_compute; reflexivity|].
  exact (@checkpointErrorDestroy_stages_in_order fine_world 5 (demo_cfg "importer")
           "all" [] _ _ (surjective_pairing _)).
Defined.

Lemma checkpointErrorDestroy_reports_failures_witness :
  let run := @checkpointErrorDestroy engines_fail_world 5 (demo_cfg "importer") "all" [] in
  observe reported_failure (snd run) =
    [("* Encountered error while closing engine:", ErrNew "engine not found");
     ("* Encountered error while closing engine:", ErrNew "engine not found")] /\
  observe as_error_line (snd run) = observe reported_failure (snd run) /\
  observe event_error (snd run) =
    [ErrNew "engine not found"; ErrNew "cleanup failed"; ErrNew "engine not found"].
Proof.
  cbv zeta. split; [vm_compute; reflexivity|]. split; [|vm_compute; reflexivity].
  exact (@checkpointErrorDestroy_reports_failures engines_fail_world 5
           (demo_cfg "importer") "all" [] _ _ (surjective_pairing _)).
Defined.

Lemma engine_commands_reject_malformed_ID_witness :
  has_byte ":" "one" = false /\
  @strconv_Atoi fine_world "one" = inl (ErrNew "strconv.Atoi: invalid syntax") /\
  @cleanupEngine fine_world (demo_cfg "importer") "`db`.`t1`:one" [] =
  (Some (ErrTrace (ErrNew "strconv.Atoi: invalid syntax")),
   [Ev (importer_NewImporter "10.0.0.8:8287" "10.0.0.9:2379") (inr (BackendRef 0))]).
Proof.
  split; [reflexivity|]. split; [reflexivity|].
  exact (proj2 (@engine_commands_reject_malformed_ID fine_world (demo_cfg "importer")
                  "`db`.`t1`" "one" [] _ eq_refl eq_refl)).
Defined.
